(** * Narwhal: NFS read/write locks -- a shallow embedding of narwhal.c

    The development follows the layers of the C file: the identity strings,
    the state file codec ([load_state_text], [parse_client_states],
    [dump_client_states]), the request engine ([request_lock],
    [remove_lock]), the link-based mutex ([exclusive_lock],
    [exclusive_unlock]) and the three public entry points.

    Modelling conventions.
    - C strings are [string]s without the NUL character; the text buffer
      [state_text] carries its two terminating NULs explicitly.
    - [long long] and [time_t] values are [Z]; [atoll] saturates at the
      bounds of [long long] as the C library does; the subtraction
      [time(NULL) - timeout_sec] is taken in [Z].
    - The array [client_states] is a list of slots addressed by index; a
      pointer into it ([granted_state], [next_client_state]) is an index.
      A write outside the allocated slots is undefined behaviour and ends
      the run with [OutOfBounds].
    - [assert] ends the run with [AssertionFailed].
    - Names are those of the C file.  The static variables [host_name] and
      [pid] are [my_host_name] and [my_pid], since the struct fields take
      the short names; the parameter [is_write_lock] and the local
      [is_granted] of [request_lock] are [is_write] and [granted].
    - The clock and the results of [link] and [unlink] are answers of the
      environment and are passed in; the other file operations (open, read,
      write, close, creat) are taken to succeed.  The diagnostic line that
      [request_lock] prints to stderr is not modelled. *)

From Stdlib Require Import ZArith Ascii String List Bool Lia.
From stdpp Require Import base list strings.

Local Open Scope Z_scope.

(** ** Characters and C library functions *)

Definition NUL : ascii := "000"%char.
Definition LF : ascii := "010"%char.
Definition SP : ascii := " "%char.

Definition is_NUL (c : ascii) : bool := Ascii.eqb c NUL.
Definition is_LF (c : ascii) : bool := Ascii.eqb c LF.
Definition is_SP (c : ascii) : bool := Ascii.eqb c SP.

(** [isspace] in the C locale: space, \t, \n, \v, \f, \r. *)
Definition isspace (c : ascii) : bool :=
  let n := nat_of_ascii c in
  (Nat.eqb n 32 || (Nat.leb 9 n && Nat.leb n 13))%bool.

(** The value of a decimal digit, if the character is one. *)
Definition digit_value (c : ascii) : option Z :=
  let n := nat_of_ascii c in
  if (Nat.leb 48 n && Nat.leb n 57)%bool then Some (Z.of_nat n - 48) else None.

Definition digit_char (d : Z) : ascii := ascii_of_nat (Z.to_nat (48 + d)).

Definition LLONG_MAX : Z := 9223372036854775807.
Definition LLONG_MIN : Z := -9223372036854775808.

Definition in_long_long (z : Z) : Prop := LLONG_MIN <= z <= LLONG_MAX.

Definition saturate (z : Z) : Z := Z.max LLONG_MIN (Z.min LLONG_MAX z).

(** The digit loop of [strtoll]: accumulate while the next character is a
    digit, stop at the first other character or at the end. *)
Fixpoint atoll_digits (s : string) (acc : Z) : Z :=
  match s with
  | EmptyString => acc
  | String c s' =>
      match digit_value c with
      | Some d => atoll_digits s' (acc * 10 + d)
      | None => acc
      end
  end.

Definition atoll_signed (s : string) : Z :=
  match s with
  | String "-" s' => - atoll_digits s' 0
  | String "+" s' => atoll_digits s' 0
  | _ => atoll_digits s 0
  end.

Fixpoint atoll_skip (s : string) : string :=
  match s with
  | String c s' => if isspace c then atoll_skip s' else s
  | EmptyString => s
  end.

(** [atoll(p)]: leading white space, an optional sign, then digits; the
    result is clamped to [long long]. *)
Definition atoll (p : string) : Z := saturate (atoll_signed (atoll_skip p)).

(** The digits of a non-negative number, most significant first, put in
    front of [rest].  [fuel] bounds the number of digits. *)
Fixpoint lld_digits (fuel : nat) (n : Z) (rest : string) : string :=
  match fuel with
  | O => rest
  | S fuel' =>
      let rest' := String (digit_char (n mod 10)) rest in
      if n / 10 =? 0 then rest' else lld_digits fuel' (n / 10) rest'
  end.

Definition lld_unsigned (n : Z) : string :=
  lld_digits (S (Z.to_nat (Z.log2 n))) n EmptyString.

(** What [printf("%lld", z)] prints. *)
Definition lld (z : Z) : string :=
  if z <? 0 then String "-" (lld_unsigned (- z)) else lld_unsigned z.

(** ** The state of one client *)

Record ClientState := mkClientState {
  is_write_lock : bool;
  is_granted : bool;
  time : Z;
  host_name : string;
  pid : string
}.

Definition set_host_name (p : string) (c : ClientState) : ClientState :=
  mkClientState (is_write_lock c) (is_granted c) (time c) p (pid c).
Definition set_pid (p : string) (c : ClientState) : ClientState :=
  mkClientState (is_write_lock c) (is_granted c) (time c) (host_name c) p.
Definition set_is_write_lock (b : bool) (c : ClientState) : ClientState :=
  mkClientState b (is_granted c) (time c) (host_name c) (pid c).
Definition set_is_granted (b : bool) (c : ClientState) : ClientState :=
  mkClientState (is_write_lock c) b (time c) (host_name c) (pid c).
Definition set_time (t : Z) (c : ClientState) : ClientState :=
  mkClientState (is_write_lock c) (is_granted c) t (host_name c) (pid c).

(** ** Serialisation: the text [dump_client_states] writes *)

Definition mode_char (c : ClientState) : ascii :=
  if is_write_lock c then "W"%char else "R"%char.
Definition status_char (c : ClientState) : ascii :=
  if is_granted c then "G"%char else "P"%char.

(** One [fprintf] with the format "%s %s %c %c %lld\n". *)
Definition dump_line (c : ClientState) : string :=
  host_name c +:+ String SP (pid c +:+ String SP (String (mode_char c)
    (String SP (String (status_char c) (String SP (lld (time c) +:+ String LF EmptyString)))))).

Fixpoint dump_text (cs : list ClientState) : string :=
  match cs with
  | [] => EmptyString
  | c :: cs' => dump_line c +:+ dump_text cs'
  end.

(** ** The world: process-wide variables and the lock directory *)

Record Narwhal := mkNarwhal {
  lockdir : string;
  spin_usec : Z;
  timeout_sec : Z
}.

Inductive Event :=
| EvCreat (path : string)
| EvLink (oldpath newpath : string)
| EvUnlink (path : string)
| EvWrite (path text : string).

Record World := mkWorld {
  (* the static variables of narwhal.c; the identity is stored under
     [my_host_name] and [my_pid], the struct fields keep the short names *)
  my_host_name : string;
  my_pid : string;
  state_path : string;
  lockfile_path : string;
  private_path : string;
  client_states : list ClientState;
  n_client_states : nat;
  granted_state : option nat;
  client_states_changed : bool;
  state_text : string;
  errno : Z;
  (* the file {lockdir}/state, empty when it was just created *)
  state_file : string;
  (* the system calls made on the lock directory, oldest first *)
  syscalls : list Event
}.

Definition with_state_path (p : string) (w : World) : World :=
  mkWorld (my_host_name w) (my_pid w) p (lockfile_path w) (private_path w)
    (client_states w) (n_client_states w) (granted_state w)
    (client_states_changed w) (state_text w) (errno w) (state_file w) (syscalls w).
Definition with_lockfile_path (p : string) (w : World) : World :=
  mkWorld (my_host_name w) (my_pid w) (state_path w) p (private_path w)
    (client_states w) (n_client_states w) (granted_state w)
    (client_states_changed w) (state_text w) (errno w) (state_file w) (syscalls w).
Definition with_private_path (p : string) (w : World) : World :=
  mkWorld (my_host_name w) (my_pid w) (state_path w) (lockfile_path w) p
    (client_states w) (n_client_states w) (granted_state w)
    (client_states_changed w) (state_text w) (errno w) (state_file w) (syscalls w).
Definition with_client_states (cs : list ClientState) (w : World) : World :=
  mkWorld (my_host_name w) (my_pid w) (state_path w) (lockfile_path w) (private_path w)
    cs (n_client_states w) (granted_state w)
    (client_states_changed w) (state_text w) (errno w) (state_file w) (syscalls w).
Definition with_n_client_states (n : nat) (w : World) : World :=
  mkWorld (my_host_name w) (my_pid w) (state_path w) (lockfile_path w) (private_path w)
    (client_states w) n (granted_state w)
    (client_states_changed w) (state_text w) (errno w) (state_file w) (syscalls w).
Definition with_granted_state (g : option nat) (w : World) : World :=
  mkWorld (my_host_name w) (my_pid w) (state_path w) (lockfile_path w) (private_path w)
    (client_states w) (n_client_states w) g
    (client_states_changed w) (state_text w) (errno w) (state_file w) (syscalls w).
Definition with_client_states_changed (b : bool) (w : World) : World :=
  mkWorld (my_host_name w) (my_pid w) (state_path w) (lockfile_path w) (private_path w)
    (client_states w) (n_client_states w) (granted_state w)
    b (state_text w) (errno w) (state_file w) (syscalls w).
Definition with_state_text (t : string) (w : World) : World :=
  mkWorld (my_host_name w) (my_pid w) (state_path w) (lockfile_path w) (private_path w)
    (client_states w) (n_client_states w) (granted_state w)
    (client_states_changed w) t (errno w) (state_file w) (syscalls w).
Definition with_errno (e : Z) (w : World) : World :=
  mkWorld (my_host_name w) (my_pid w) (state_path w) (lockfile_path w) (private_path w)
    (client_states w) (n_client_states w) (granted_state w)
    (client_states_changed w) (state_text w) e (state_file w) (syscalls w).
Definition with_state_file (t : string) (w : World) : World :=
  mkWorld (my_host_name w) (my_pid w) (state_path w) (lockfile_path w) (private_path w)
    (client_states w) (n_client_states w) (granted_state w)
    (client_states_changed w) (state_text w) (errno w) t (syscalls w).
Definition with_event (e : Event) (w : World) : World :=
  mkWorld (my_host_name w) (my_pid w) (state_path w) (lockfile_path w) (private_path w)
    (client_states w) (n_client_states w) (granted_state w)
    (client_states_changed w) (state_text w) (errno w) (state_file w) (syscalls w ++ [e]).

Definition with_my_host_name (h : string) (w : World) : World :=
  mkWorld h (my_pid w) (state_path w) (lockfile_path w) (private_path w)
    (client_states w) (n_client_states w) (granted_state w)
    (client_states_changed w) (state_text w) (errno w) (state_file w) (syscalls w).
Definition with_my_pid (p : string) (w : World) : World :=
  mkWorld (my_host_name w) p (state_path w) (lockfile_path w) (private_path w)
    (client_states w) (n_client_states w) (granted_state w)
    (client_states_changed w) (state_text w) (errno w) (state_file w) (syscalls w).

(** ** Runs: a state monad with abnormal termination *)

Inductive Crash := AssertionFailed | OutOfBounds | ScriptExhausted.

Inductive Outcome (A : Type) :=
| Done (a : A) (w : World)
| Crashed (c : Crash).
Arguments Done {A} a w.
Arguments Crashed {A} c.

Definition M (A : Type) : Type := World -> Outcome A.

Definition ret {A} (a : A) : M A := fun w => Done a w.
Definition bind {A B} (m : M A) (k : A -> M B) : M B :=
  fun w => match m w with
           | Done a w' => k a w'
           | Crashed c => Crashed c
           end.
Definition crash {A} (c : Crash) : M A := fun _ => Crashed c.
Definition gets {A} (f : World -> A) : M A := fun w => Done (f w) w.
Definition modify (f : World -> World) : M unit := fun w => Done tt (f w).
Definition when (b : bool) (m : M unit) : M unit := if b then m else ret tt.

Declare Scope run_scope.
Delimit Scope run_scope with run.
Notation "x <- m ;; k" := (bind m (fun x => k))
  (at level 100, m at next level, right associativity) : run_scope.
Notation "m ;;; k" := (bind m (fun _ => k))
  (at level 100, right associativity) : run_scope.
Local Open Scope run_scope.

Definition ENOTSUP : Z := 95.
Definition ETIMEDOUT : Z := 110.

(** ** Identity *)

(** [patch_host_name]: every space becomes an underscore. *)
Fixpoint patch_host_name (s : string) : string :=
  match s with
  | EmptyString => EmptyString
  | String c s' => String (if is_SP c then "_"%char else c) (patch_host_name s')
  end.

Definition narwhal_hostname (hostname : string) : M unit :=
  match hostname with
  | EmptyString => crash AssertionFailed
  | _ => modify (with_my_host_name (patch_host_name hostname))
  end.

Definition narwhal_pid (new_pid : string) : M unit :=
  match new_pid with
  | EmptyString => crash AssertionFailed
  | _ => modify (with_my_pid new_pid)
  end.

(** [format_path(&path, a, b, ..., NULL)]: the parts, concatenated. *)
Fixpoint format_path (parts : list string) : string :=
  match parts with
  | [] => EmptyString
  | p :: parts' => p +:+ format_path parts'
  end.

(** A store through a pointer into [client_states]. *)
Definition store_slot (i : nat) (f : ClientState -> ClientState) : M unit :=
  fun w => match client_states w !! i with
           | Some c => Done tt (with_client_states (<[i := f c]> (client_states w)) w)
           | None => Crashed OutOfBounds
           end.

(** A read through a pointer into [client_states]. *)
Definition load_slot (i : nat) : M ClientState :=
  fun w => match client_states w !! i with
           | Some c => Done c w
           | None => Crashed OutOfBounds
           end.

(** ** State file codec *)

(** [load_state_text]: the file is opened with O_CREAT, so a missing file
    reads as an empty one; the buffer gets two NULs after the contents. *)
Definition load_state_text (narwhal : Narwhal) : M Z :=
  modify (with_state_path (format_path [lockdir narwhal; "/state"])) ;;;
  text <- gets state_file ;;
  modify (with_state_text (text +:+ String NUL (String NUL EmptyString))) ;;;
  ret 0.

(** First loop of [parse_client_states]: up to the first NUL, count the
    line breaks and overwrite spaces and line breaks with NUL. *)
Fixpoint count_newlines (s : string) : nat :=
  match s with
  | EmptyString => O
  | String c s' =>
      if is_NUL c then O
      else ((if is_LF c then 1 else 0) + count_newlines s')%nat
  end.

Fixpoint nul_separate (s : string) : string :=
  match s with
  | EmptyString => EmptyString
  | String c s' =>
      if is_NUL c then s
      else String (if (is_LF c || is_SP c)%bool then NUL else c) (nul_separate s')
  end.

(** The strings the second loop visits: [p] starts at the buffer, the body
    sees the C string at [p], and [while ( *p++ )] moves past its NUL; the
    loop ends at the first empty string.  [cur] is the part of the current
    string already passed. *)
Fixpoint fields (s : string) (cur : string) : list string :=
  match s with
  | EmptyString => []
  | String c s' =>
      if is_NUL c then
        match cur with
        | EmptyString => []
        | _ => cur :: fields s' EmptyString
        end
      else fields s' (cur +:+ String c EmptyString)
  end.

(** The value left in memory that [realloc] hands out uninitialised. *)
Definition uninitialised : ClientState :=
  mkClientState false false 0 EmptyString EmptyString.

(** The body of the second loop for one string [p], with
    [next_client_state] as the index [next]; returns the new index. *)
Definition parse_field (first_fresh_time : Z) (p : string) (next field_index : nat)
  : M nat :=
  match (field_index mod 5)%nat with
  | 0%nat => store_slot next (set_host_name p) ;;; ret next
  | 1%nat => store_slot next (set_pid p) ;;; ret next
  | 2%nat =>
      match p with
      | String c EmptyString =>
          if Ascii.eqb c "R" then store_slot next (set_is_write_lock false) ;;; ret next
          else if Ascii.eqb c "W" then store_slot next (set_is_write_lock true) ;;; ret next
          else crash AssertionFailed
      | _ => crash AssertionFailed
      end
  | 3%nat =>
      match p with
      | String c EmptyString =>
          if Ascii.eqb c "P" then store_slot next (set_is_granted false) ;;; ret next
          else if Ascii.eqb c "G" then
            store_slot next (set_is_granted true) ;;;
            modify (with_granted_state (Some next)) ;;;
            ret next
          else crash AssertionFailed
      | _ => crash AssertionFailed
      end
  | _ =>
      store_slot next (set_time (atoll p)) ;;;
      if first_fresh_time <=? atoll p then ret (S next)
      else modify (with_client_states_changed true) ;;; ret next
  end.

Fixpoint parse_fields (first_fresh_time : Z) (ps : list string) (next field_index : nat)
  : M nat :=
  match ps with
  | [] => ret next
  | p :: ps' =>
      next' <- parse_field first_fresh_time p next field_index ;;
      parse_fields first_fresh_time ps' next' (S field_index)
  end.

(** [parse_client_states]; [now] is what [time(NULL)] returns. *)
Definition parse_client_states (narwhal : Narwhal) (now : Z) : M unit :=
  let first_fresh_time := now - timeout_sec narwhal in
  text <- gets state_text ;;
  modify (with_n_client_states (count_newlines text)) ;;;
  modify (with_state_text (nul_separate text)) ;;;
  modify (fun w => with_client_states
            (resize (count_newlines text + 1) uninitialised (client_states w)) w) ;;;
  modify (with_client_states_changed false) ;;;
  modify (with_granted_state None) ;;;
  next <- parse_fields first_fresh_time (fields (nul_separate text) EmptyString) 0 0 ;;
  modify (with_n_client_states next).

Definition load_client_states (narwhal : Narwhal) (now : Z) : M Z :=
  r <- load_state_text narwhal ;;
  if r <? 0 then ret (-1)
  else parse_client_states narwhal now ;;; ret 0.

(** [dump_client_states]: rewrite the state file from the first
    [n_client_states] slots. *)
Definition dump_client_states : M Z :=
  w <- gets id ;;
  let text := dump_text (take (n_client_states w) (client_states w)) in
  modify (with_state_file text) ;;;
  modify (with_event (EvWrite (state_path w) text)) ;;;
  ret 0.

(** ** Request engine *)

(** The test that lets the search loops skip a slot:
    [strcmp(client_state->pid, pid) || strcmp(client_state->host_name, host_name)]
    is zero. *)
Definition is_mine (host p : string) (c : ClientState) : bool :=
  (String.eqb (pid c) p && String.eqb (host_name c) host)%bool.

(** The index at which the search loop of [request_lock] and [remove_lock]
    leaves [client_state]: the first slot of the caller among [cs], counted
    from [i]; [None] when the loop runs to [end_state]. *)
Fixpoint find_mine (host p : string) (cs : list ClientState) (i : nat) : option nat :=
  match cs with
  | [] => None
  | c :: cs' => if is_mine host p c then Some i else find_mine host p cs' (S i)
  end.

Definition bool_to_int (b : bool) : Z := if b then 1 else 0.

(** Line 321: [!granted_state || (!is_write_lock && !granted_state->is_write_lock)]. *)
Definition grant_now (is_write : bool) : M bool :=
  g <- gets granted_state ;;
  match g with
  | None => ret true
  | Some i =>
      if is_write then ret false
      else c <- load_slot i ;; ret (negb (is_write_lock c))
  end.

(** [request_lock]; [now] is what [time(NULL)] returns. *)
Definition request_lock (is_write : bool) (now : Z) : M Z :=
  granted <- grant_now is_write ;;
  w <- gets id ;;
  let n := n_client_states w in
  let finish : M Z :=
    changed <- gets client_states_changed ;;
    r <- (if changed then dump_client_states else ret 0) ;;
    if r <? 0 then ret (-1) else ret (bool_to_int granted) in
  match find_mine (my_host_name w) (my_pid w) (take n (client_states w)) 0 with
  | Some i =>
      c <- load_slot i ;;
      if (is_granted c || negb (Bool.eqb (is_write_lock c) is_write))%bool then
        modify (with_errno ENOTSUP) ;;; ret (-1)
      else
        when granted (store_slot i (set_is_granted true) ;;;
                      modify (with_client_states_changed true)) ;;;
        when (negb (time c =? now)) (store_slot i (set_time now) ;;;
                                     modify (with_client_states_changed true)) ;;;
        finish
  | None =>
      store_slot n (fun _ => mkClientState is_write granted now (my_host_name w) (my_pid w)) ;;;
      modify (with_client_states_changed true) ;;;
      modify (with_n_client_states (S n)) ;;;
      finish
  end.

(** [memmove(base + dst, base + src, count * sizeof(ClientState))] inside
    the array. *)
Definition memmove_slots (dst src count : nat) (cs : list ClientState) : list ClientState :=
  take dst cs ++ take count (drop src cs) ++ drop (dst + count) cs.

(** [remove_lock]; [n_client_states] is not written. *)
Definition remove_lock : M Z :=
  w <- gets id ;;
  let n := n_client_states w in
  match find_mine (my_host_name w) (my_pid w) (take n (client_states w)) 0 with
  | Some i =>
      c <- load_slot i ;;
      if is_granted c then
        modify (with_client_states (memmove_slots i (S i) (n - i - 1) (client_states w))) ;;;
        r <- dump_client_states ;;
        if r <? 0 then ret (-1) else ret 0
      else crash AssertionFailed
  | None => modify (with_errno ENOTSUP) ;;; ret (-1)
  end.

(** ** The mutex on the lock directory *)

(** What the environment answers during one pass of the spin loop of
    [exclusive_lock]: the result of [link] ([None] for success, otherwise
    the error code) and the clock read after the sleep. *)
Record Spin := mkSpin {
  link_result : option Z;
  clock_after_sleep : Z
}.

(** What the environment answers during one pass of the retry loop of a
    public operation. *)
Record Round := mkRound {
  clock_deadline : Z;          (* time(NULL) in exclusive_lock *)
  spins : list Spin;
  clock_parse : Z;             (* time(NULL) in parse_client_states *)
  clock_request : Z;           (* time(NULL) in request_lock *)
  unlink_lockfile : option Z;  (* None: success, Some e: failure, errno e *)
  unlink_private : option Z
}.

Fixpoint spin_link (last_reasonable_time : Z) (sp : list Spin) : M Z :=
  match sp with
  | [] => crash ScriptExhausted
  | s :: sp' =>
      w <- gets id ;;
      modify (with_event (EvLink (private_path w) (lockfile_path w))) ;;;
      match link_result s with
      | None => ret 0
      | Some e =>
          modify (with_errno e) ;;;
          if clock_after_sleep s >? last_reasonable_time then
            modify (with_errno ETIMEDOUT) ;;; ret (-1)
          else spin_link last_reasonable_time sp'
      end
  end.

Definition exclusive_lock (narwhal : Narwhal) (r : Round) : M Z :=
  w <- gets id ;;
  let priv := format_path [lockdir narwhal; "/"; my_host_name w; "."; my_pid w] in
  modify (with_private_path priv) ;;;
  modify (with_event (EvCreat priv)) ;;;
  modify (with_lockfile_path (format_path [lockdir narwhal; "/lockfile"])) ;;;
  spin_link (clock_deadline r + timeout_sec narwhal) (spins r).

(** One [unlink]: -1 and [errno] on failure, 0 on success. *)
Definition unlink (path : string) (result : option Z) : M Z :=
  modify (with_event (EvUnlink path)) ;;;
  match result with
  | None => ret 0
  | Some e => modify (with_errno e) ;;; ret (-1)
  end.

Definition exclusive_unlock (r : Round) : M Z :=
  base_errno <- gets errno ;;
  modify (with_errno 0) ;;;
  lockfile <- gets lockfile_path ;;
  lockfile_result <- unlink lockfile (unlink_lockfile r) ;;
  priv <- gets private_path ;;
  private_result <- unlink priv (unlink_private r) ;;
  when (negb (base_errno =? 0)) (modify (with_errno base_errno)) ;;;
  ret (if lockfile_result <? private_result then lockfile_result else private_result).

(** ** Public operations *)

(** The common body of [narwhal_read_lock] and [narwhal_write_lock], which
    differ in the argument of [request_lock] only.  The retry loop runs
    against the answers [env] of the environment, one [Round] per pass. *)
Fixpoint narwhal_lock (is_write : bool) (narwhal : Narwhal) (env : list Round) : M Z :=
  match env with
  | [] => crash ScriptExhausted
  | r :: env' =>
      l <- exclusive_lock narwhal r ;;
      if l <? 0 then ret (-1)
      else
        ld <- load_client_states narwhal (clock_parse r) ;;
        result <- (if ld <? 0 then ret (-1) else request_lock is_write (clock_request r)) ;;
        u <- exclusive_unlock r ;;
        if ((u <? 0) || (result <? 0))%bool then ret (-1)
        else if negb (result =? 0) then ret 0
        else narwhal_lock is_write narwhal env'
  end.

Definition narwhal_read_lock : Narwhal -> list Round -> M Z := narwhal_lock false.
Definition narwhal_write_lock : Narwhal -> list Round -> M Z := narwhal_lock true.

(** [narwhal_unlock]: the loop body returns on its first pass. *)
Definition narwhal_unlock (narwhal : Narwhal) (r : Round) : M Z :=
  l <- exclusive_lock narwhal r ;;
  if l <? 0 then ret (-1)
  else
    ld <- load_client_states narwhal (clock_parse r) ;;
    result <- (if ld <? 0 then ret (-1) else remove_lock) ;;
    u <- exclusive_unlock r ;;
    if ((u <? 0) || (result <? 0))%bool then ret (-1) else ret 0.

(** ** Running scenarios *)

(** A process that has called [narwhal_hostname] and [narwhal_pid] and
    nothing else yet, in front of a lock directory whose state file holds
    [text]. *)
Definition fresh_process (host p text : string) : World :=
  mkWorld host p EmptyString EmptyString EmptyString [uninitialised] 0 None false
    EmptyString 0 text [].

(** A pass in which the environment lets every call succeed at once, at
    clock [t]. *)
Definition quiet (t : Z) : Round := mkRound t [mkSpin None t] t t None None.

(** * Vocabulary of the statements *)

(** A character that may occur inside a field: not NUL, not a separator. *)
Definition field_char (c : ascii) : bool :=
  negb (is_NUL c || is_LF c || is_SP c).

(** Every character of [s] may occur inside a field. *)
Fixpoint clean (s : string) : bool :=
  match s with
  | EmptyString => true
  | String c s' => (field_char c && clean s')%bool
  end.

(** A field as the state file can hold it: not empty, no NUL, no separator. *)
Definition is_field (s : string) : Prop := s <> EmptyString /\ clean s = true.

(** An entry whose line can be read back: both identifiers are fields and
    the time fits [long long]. *)
Definition wf_entry (c : ClientState) : Prop :=
  is_field (host_name c) /\ is_field (pid c) /\ in_long_long (time c).

(** The five strings the parser reads from the line of [c]. *)
Definition entry_fields (c : ClientState) : list string :=
  [host_name c; pid c; String (mode_char c) EmptyString;
   String (status_char c) EmptyString; lld (time c)].

(** The two NULs [load_state_text] puts after the contents. *)
Definition NULNUL : string := String NUL (String NUL EmptyString).

(** The test of line 260. *)
Definition fresh (first_fresh_time : Z) (c : ClientState) : bool :=
  first_fresh_time <=? time c.

(** What parsing leaves alone. *)
Definition surroundings (w : World) :=
  (my_host_name w, my_pid w, lockfile_path w, private_path w, errno w,
   state_file w, syscalls w).

(** A granted pointer, when set, points into the allocated slots. *)
Definition granted_in_bounds (w : World) : Prop :=
  match granted_state w with
  | Some i => (i < length (client_states w))%nat
  | None => True
  end.

(** Sample data: a state with an old and a current entry; a parsed state
    in which the caller waits for a write lock; the configuration of the
    scenarios. *)
Definition c4_entries : list ClientState :=
  [mkClientState false true 5 "host1" "100"; mkClientState true false 100 "host1" "200"].

(** Parsing the file and serialising what was parsed: the load of one
    pass followed by [dump_client_states]. *)
Definition reload_and_dump (narwhal : Narwhal) (now : Z) : M Z :=
  r <- load_client_states narwhal now ;;
  if r <? 0 then ret (-1) else dump_client_states.

(** The pair that identifies the owner of an entry. *)
Definition key (c : ClientState) : string * string := (host_name c, pid c).

(** The texts written to the state file so far, oldest first. *)
Definition state_writes (w : World) : list string :=
  flat_map (fun e => match e with EvWrite _ t => [t] | _ => [] end) (syscalls w).

(** What the mutex operations do not touch. *)
Definition critical_data (w : World) :=
  (my_host_name w, my_pid w, state_path w, client_states w, n_client_states w,
   granted_state w, client_states_changed w, state_text w, state_file w,
   state_writes w).

(** The error code the two [unlink] calls leave when [errno] was 0. *)
Definition unlink_errno (r : Round) : Z :=
  match unlink_private r, unlink_lockfile r with
  | Some e, _ => e
  | None, Some e => e
  | None, None => 0
  end.

(** Whether one of the two [unlink] calls fails. *)
Definition unlink_failed (r : Round) : bool :=
  match unlink_lockfile r, unlink_private r with
  | None, None => false
  | _, _ => true
  end.

Definition cfg : Narwhal := mkNarwhal "d" 1000 10.

Definition c9_world : World :=
  mkWorld "host1" "100" "d/state" "d/lockfile" "d/host1.100"
    [mkClientState true false 90 "host1" "100"; uninitialised] 1 None false
    EmptyString 0 (dump_text [mkClientState true false 90 "host1" "100"]) [].

(** The process [me] goes on, in front of the lock directory as [other]
    left it. *)
Definition sees (me other : World) : World := with_state_file (state_file other) me.

(** A pass in which [link] fails until the clock has passed the deadline. *)
Definition mutex_timeout (t : Z) : Round :=
  mkRound t [mkSpin (Some 17) (t + 5); mkSpin (Some 17) (t + 11)] t t None None.

(** A pass in which the second [unlink] fails with EIO. *)
Definition unlink_fails (t : Z) : Round :=
  mkRound t [mkSpin None t] t t None (Some 5).

(** ** Vocabulary of the further properties *)

(** The index, among the entries of a file, of the last one that is
    granted. *)
Fixpoint last_granted (cs : list ClientState) : option nat :=
  match cs with
  | [] => None
  | c :: cs' =>
      match last_granted cs' with
      | Some j => Some (S j)
      | None => if is_granted c then Some 0%nat else None
      end
  end.

(** The last granted entry of a file. *)
Fixpoint last_granted_entry (cs : list ClientState) : option ClientState :=
  match cs with
  | [] => None
  | c :: cs' =>
      match last_granted_entry cs' with
      | Some x => Some x
      | None => if is_granted c then Some c else None
      end
  end.

(** A lock directory with a reader holding the lock and a writer waiting,
    and one with a stale granted line. *)
Definition x_reader_and_writer : list ClientState :=
  [mkClientState false true 100 "host1" "100"; mkClientState true false 100 "host1" "200"].
Definition x_stale_reader : list ClientState :=
  [mkClientState false true 5 "host1" "100"].

(** A pass of the spin loop in which [link] fails and the clock read after
    the sleep has not passed [deadline]. *)
Definition spins_on (deadline : Z) (s : Spin) : Prop :=
  link_result s <> None /\ clock_after_sleep s <= deadline.

(** The value of [errno] after the failed [link] calls of [sp], starting
    from [e0]. *)
Definition errno_after_links (sp : list Spin) (e0 : Z) : Z :=
  fold_left (fun e s => match link_result s with Some x => x | None => e end) sp e0.

(** The path of the private file of the process. *)
Definition private_file (narwhal : Narwhal) (w : World) : string :=
  format_path [lockdir narwhal; "/"; my_host_name w; "."; my_pid w].
Definition lock_file (narwhal : Narwhal) : string :=
  format_path [lockdir narwhal; "/lockfile"].

(** No NUL and no line break in [s]. *)
Fixpoint no_break (s : string) : bool :=
  match s with
  | EmptyString => true
  | String c s' => (negb (is_NUL c || is_LF c) && no_break s')%bool
  end.

(** No space in [s]. *)
Fixpoint no_space (s : string) : bool :=
  match s with
  | EmptyString => true
  | String c s' => (negb (is_SP c) && no_space s')%bool
  end.

(** Sample data of the witnesses: a pass in which the first [link] fails,
    a process in front of an empty lock directory, and files with one
    waiting writer. *)
Definition x_contended : Round :=
  mkRound 100 [mkSpin (Some 17) 101; mkSpin None 102] 102 102 None None.
Definition x_empty_dir : World := fresh_process "host1" "100" EmptyString.
Definition x_waiting_writer : list ClientState :=
  [mkClientState true false 90 "host1" "100"].

(** * Properties *)

Example lld_examples :
  lld 0 = "0" /\ lld 1700000000 = "1700000000" /\ lld (-42) = "-42" /\
  atoll "1700000000" = 1700000000 /\ atoll "-42" = -42 /\ atoll " 12x" = 12.
Proof. repeat split; reflexivity. Qed.

Example dump_line_example :
  dump_line (mkClientState false true 100 "host1" "100")
  = "host1 100 R G 100" +:+ String LF EmptyString.
Proof. reflexivity. Qed.

(** ** Strings *)

Lemma append_nil (b : string) : EmptyString +:+ b = b.
Proof. reflexivity. Qed.

Lemma append_cons (x : ascii) (a b : string) : String x a +:+ b = String x (a +:+ b).
Proof. reflexivity. Qed.

Lemma append_assoc (a b c : string) : (a +:+ b) +:+ c = a +:+ (b +:+ c).
Proof.
  induction a as [|x a IH]; [reflexivity|].
  rewrite !append_cons. f_equal. exact IH.
Qed.

Lemma append_empty_r (a : string) : a +:+ EmptyString = a.
Proof.
  induction a as [|x a IH]; [reflexivity|].
  rewrite append_cons. f_equal. exact IH.
Qed.

Lemma field_char_inv c :
  field_char c = true -> is_NUL c = false /\ is_LF c = false /\ is_SP c = false.
Proof.
  unfold field_char. intros H. apply negb_true_iff in H.
  apply orb_false_iff in H as [H ?]. apply orb_false_iff in H as [? ?]. auto.
Qed.

(** The second loop sees a clean piece followed by a separator as one
    string. *)
Lemma fields_piece (sep : ascii) (t rest cur : string) :
  clean t = true -> (is_LF sep || is_SP sep)%bool = true -> is_NUL sep = false ->
  fields (nul_separate (t +:+ String sep rest)) cur =
  match cur +:+ t with
  | EmptyString => []
  | f => f :: fields (nul_separate rest) EmptyString
  end.
Proof.
  intros Ht Hsep Hnul. revert cur Ht.
  induction t as [|c t IH]; intros cur Ht.
  - rewrite append_nil, append_empty_r. simpl. rewrite Hnul, Hsep. simpl.
    destruct cur; reflexivity.
  - simpl in Ht. apply andb_true_iff in Ht as [Hc Ht].
    destruct (field_char_inv c Hc) as (H0 & H1 & H2).
    rewrite append_cons. simpl. rewrite H0, H1, H2. simpl. rewrite H0.
    rewrite IH by assumption. now rewrite append_assoc, append_cons, append_nil.
Qed.

Lemma count_newlines_clean (t rest : string) :
  clean t = true -> count_newlines (t +:+ rest) = count_newlines rest.
Proof.
  induction t as [|c t IH]; [reflexivity|].
  rewrite append_cons. simpl.
  intros Ht. apply andb_true_iff in Ht as [Hc Ht].
  destruct (field_char_inv c Hc) as (H0 & H1 & H2).
  rewrite H0, H1. simpl. auto.
Qed.

(** ** Decimal numbers *)

Lemma digit_char_spec (d : Z) :
  0 <= d <= 9 ->
  digit_value (digit_char d) = Some d /\ field_char (digit_char d) = true /\
  isspace (digit_char d) = false /\
  (forall s, atoll_signed (String (digit_char d) s) = atoll_digits (String (digit_char d) s) 0).
Proof.
  intros H.
  assert (d = 0 \/ d = 1 \/ d = 2 \/ d = 3 \/ d = 4 \/ d = 5 \/ d = 6 \/ d = 7 \/
          d = 8 \/ d = 9) as Hd by lia.
  repeat destruct Hd as [-> | Hd]; try subst d; repeat split; reflexivity.
Qed.

Lemma mod10_digit (n : Z) : 0 <= n mod 10 <= 9.
Proof. pose proof (Z.mod_pos_bound n 10). lia. Qed.

Lemma atoll_lld_digits (fuel : nat) :
  forall n rest, 0 <= n < 2 ^ Z.of_nat fuel ->
  atoll_digits (lld_digits fuel n rest) 0 = atoll_digits rest n.
Proof.
  induction fuel as [|fuel IH]; intros n rest Hn.
  - simpl in *. assert (n = 0) by lia. now subst.
  - cbn [lld_digits].
    destruct (digit_char_spec (n mod 10) (mod10_digit n)) as (Hv & _).
    assert (Hstep : atoll_digits (String (digit_char (n mod 10)) rest) (n / 10)
                    = atoll_digits rest n).
    { cbn [atoll_digits]. rewrite Hv. f_equal.
      pose proof (Z.div_mod n 10). lia. }
    destruct (n / 10 =? 0) eqn:Hq.
    + apply Z.eqb_eq in Hq. rewrite <- Hstep, Hq. reflexivity.
    + rewrite IH; [exact Hstep|].
      rewrite Nat2Z.inj_succ, Z.pow_succ_r in Hn by lia.
      split; [apply Z.div_pos; lia|].
      apply Z.div_lt_upper_bound; lia.
Qed.

Lemma lld_digits_head (fuel : nat) :
  forall n d rest, 0 <= d <= 9 ->
  exists d' rest', 0 <= d' <= 9 /\
    lld_digits fuel n (String (digit_char d) rest) = String (digit_char d') rest'.
Proof.
  induction fuel as [|fuel IH]; intros n d rest Hd.
  - exists d, rest. auto.
  - cbn [lld_digits]. destruct (n / 10 =? 0).
    + exists (n mod 10), (String (digit_char d) rest). split; [apply mod10_digit | reflexivity].
    + apply IH, mod10_digit.
Qed.

Lemma lld_digits_clean (fuel : nat) :
  forall n rest, clean rest = true -> clean (lld_digits fuel n rest) = true.
Proof.
  induction fuel as [|fuel IH]; intros n rest Hr; [exact Hr|].
  cbn [lld_digits].
  destruct (digit_char_spec (n mod 10) (mod10_digit n)) as (_ & Hc & _).
  assert (clean (String (digit_char (n mod 10)) rest) = true) by (simpl; now rewrite Hc).
  destruct (n / 10 =? 0); auto.
Qed.

Lemma lld_unsigned_head (n : Z) :
  exists d rest, 0 <= d <= 9 /\ lld_unsigned n = String (digit_char d) rest.
Proof.
  unfold lld_unsigned. cbn [lld_digits]. destruct (n / 10 =? 0).
  - exists (n mod 10), EmptyString. split; [apply mod10_digit | reflexivity].
  - apply lld_digits_head, mod10_digit.
Qed.

Lemma atoll_lld_unsigned (n : Z) :
  0 <= n -> atoll_digits (lld_unsigned n) 0 = n.
Proof.
  intros Hn. unfold lld_unsigned. rewrite atoll_lld_digits; [reflexivity|].
  split; [assumption|].
  destruct (Z.eq_dec n 0) as [-> | Hne]; [reflexivity|].
  rewrite Nat2Z.inj_succ, Z2Nat.id by apply Z.log2_nonneg.
  apply Z.log2_spec. lia.
Qed.

Lemma lld_is_field (z : Z) : is_field (lld z).
Proof.
  unfold is_field, lld. destruct (z <? 0).
  - split; [discriminate|]. simpl. apply lld_digits_clean. reflexivity.
  - split.
    + destruct (lld_unsigned_head z) as (d & r & _ & ->). discriminate.
    + apply lld_digits_clean. reflexivity.
Qed.

(** Reading back what [%lld] printed. *)
Lemma atoll_lld (z : Z) : in_long_long z -> atoll (lld z) = z.
Proof.
  unfold in_long_long, LLONG_MIN, LLONG_MAX. intros Hz.
  assert (Hsat : saturate z = z) by (unfold saturate, LLONG_MIN, LLONG_MAX; lia).
  unfold atoll, lld. destruct (z <? 0) eqn:Hneg.
  - apply Z.ltb_lt in Hneg. cbn [atoll_skip]. change (isspace "-") with false.
    cbv iota. cbn [atoll_signed]. rewrite atoll_lld_unsigned by lia.
    rewrite Z.opp_involutive. exact Hsat.
  - apply Z.ltb_ge in Hneg.
    destruct (lld_unsigned_head z) as (d & r & Hd & Heq).
    destruct (digit_char_spec d Hd) as (_ & _ & Hsp & Hsg).
    rewrite Heq. cbn [atoll_skip]. rewrite Hsp, Hsg, <- Heq.
    rewrite atoll_lld_unsigned by assumption. exact Hsat.
Qed.

(** ** Tokenising what the serialiser wrote *)

Lemma fields_field (sep : ascii) (t rest : string) :
  is_field t -> (is_LF sep || is_SP sep)%bool = true -> is_NUL sep = false ->
  fields (nul_separate (t +:+ String sep rest)) EmptyString
  = t :: fields (nul_separate rest) EmptyString.
Proof.
  intros [Hne Hc] Hsep Hnul. rewrite fields_piece by assumption.
  rewrite append_nil. destruct t; [contradiction | reflexivity].
Qed.

Lemma dump_line_append (c : ClientState) (rest : string) :
  dump_line c +:+ rest =
  host_name c +:+ String SP (pid c +:+ String SP
    ((String (mode_char c) EmptyString) +:+ String SP
      ((String (status_char c) EmptyString) +:+ String SP
        (lld (time c) +:+ String LF rest)))).
Proof.
  unfold dump_line.
  rewrite !append_assoc, !append_cons, !append_assoc, !append_cons, !append_nil.
  rewrite !append_assoc, !append_cons, !append_nil. reflexivity.
Qed.

Lemma mode_char_field c : is_field (String (mode_char c) EmptyString).
Proof. unfold mode_char. destruct (is_write_lock c); split; (discriminate || reflexivity). Qed.

Lemma status_char_field c : is_field (String (status_char c) EmptyString).
Proof. unfold status_char. destruct (is_granted c); split; (discriminate || reflexivity). Qed.

Lemma fields_dump_line (c : ClientState) (rest : string) :
  wf_entry c ->
  fields (nul_separate (dump_line c +:+ rest)) EmptyString
  = entry_fields c ++ fields (nul_separate rest) EmptyString.
Proof.
  intros (Hh & Hp & _). rewrite dump_line_append.
  rewrite fields_field by (assumption || reflexivity).
  rewrite fields_field by (assumption || reflexivity).
  rewrite fields_field by (apply mode_char_field || reflexivity).
  rewrite fields_field by (apply status_char_field || reflexivity).
  rewrite fields_field by (apply lld_is_field || reflexivity).
  reflexivity.
Qed.

Lemma fields_dump_text (cs : list ClientState) :
  Forall wf_entry cs ->
  fields (nul_separate (dump_text cs +:+ NULNUL)) EmptyString
  = flat_map entry_fields cs.
Proof.
  induction 1 as [|c cs Hc _ IH]; [reflexivity|].
  cbn [dump_text flat_map]. rewrite append_assoc, fields_dump_line by assumption.
  now rewrite IH.
Qed.

Lemma count_newlines_dump_text (cs : list ClientState) :
  Forall wf_entry cs ->
  count_newlines (dump_text cs +:+ NULNUL) = length cs.
Proof.
  induction 1 as [|c cs (Hh & Hp & _) _ IH]; [reflexivity|].
  cbn [dump_text length]. rewrite append_assoc, dump_line_append.
  rewrite (count_newlines_clean (host_name c)) by apply Hh.
  change (count_newlines (String SP ?x)) with (count_newlines x).
  rewrite (count_newlines_clean (pid c)) by apply Hp.
  change (count_newlines (String SP ?x)) with (count_newlines x).
  rewrite count_newlines_clean by apply mode_char_field.
  change (count_newlines (String SP ?x)) with (count_newlines x).
  rewrite count_newlines_clean by apply status_char_field.
  change (count_newlines (String SP ?x)) with (count_newlines x).
  rewrite count_newlines_clean by apply lld_is_field.
  change (count_newlines (String LF ?x)) with (S (count_newlines x)).
  now rewrite IH.
Qed.

(** ** Parsing what the serialiser wrote *)

Lemma field_index_mod (fi : nat) :
  (fi mod 5 = 0)%nat ->
  (S fi mod 5 = 1 /\ S (S fi) mod 5 = 2 /\ S (S (S fi)) mod 5 = 3 /\
   S (S (S (S fi))) mod 5 = 4 /\ (5 + fi) mod 5 = 0)%nat.
Proof.
  intros H. pose proof (Nat.div_mod_eq fi 5) as E. rewrite H, Nat.add_0_r in E.
  rewrite E.
  change (S (S (S (S (5 * (fi / 5))))))%nat with (4 + 5 * (fi / 5))%nat.
  change (S (S (S (5 * (fi / 5)))))%nat with (3 + 5 * (fi / 5))%nat.
  change (S (S (5 * (fi / 5))))%nat with (2 + 5 * (fi / 5))%nat.
  change (S (5 * (fi / 5)))%nat with (1 + 5 * (fi / 5))%nat.
  rewrite !(Nat.mul_comm 5), !Nat.Div0.mod_add. repeat split; reflexivity.
Qed.

Lemma store_slot_run (i : nat) (f : ClientState -> ClientState) (w : World) (c : ClientState) :
  client_states w !! i = Some c ->
  store_slot i f w = Done tt (with_client_states (<[i := f c]> (client_states w)) w).
Proof. intros H. unfold store_slot. now rewrite H. Qed.

Lemma parse_field_host ff p next fi w c0 :
  (fi mod 5 = 0)%nat -> client_states w !! next = Some c0 ->
  parse_field ff p next fi w
  = Done next (with_client_states (<[next := set_host_name p c0]> (client_states w)) w).
Proof.
  intros Hfi Hc0. unfold parse_field. rewrite Hfi. unfold bind.
  now rewrite (store_slot_run _ _ _ _ Hc0).
Qed.

Lemma parse_field_pid ff p next fi w c0 :
  (fi mod 5 = 1)%nat -> client_states w !! next = Some c0 ->
  parse_field ff p next fi w
  = Done next (with_client_states (<[next := set_pid p c0]> (client_states w)) w).
Proof.
  intros Hfi Hc0. unfold parse_field. rewrite Hfi. unfold bind.
  now rewrite (store_slot_run _ _ _ _ Hc0).
Qed.

Lemma parse_field_mode ff c next fi w c0 :
  (fi mod 5 = 2)%nat -> client_states w !! next = Some c0 ->
  parse_field ff (String (mode_char c) EmptyString) next fi w
  = Done next (with_client_states
                 (<[next := set_is_write_lock (is_write_lock c) c0]> (client_states w)) w).
Proof.
  intros Hfi Hc0. unfold parse_field, mode_char. rewrite Hfi.
  destruct (is_write_lock c); cbn [Ascii.eqb Bool.eqb]; unfold bind;
    now rewrite (store_slot_run _ _ _ _ Hc0).
Qed.

Lemma parse_field_status ff c next fi w c0 :
  (fi mod 5 = 3)%nat -> client_states w !! next = Some c0 ->
  parse_field ff (String (status_char c) EmptyString) next fi w
  = Done next (with_granted_state (if is_granted c then Some next else granted_state w)
                (with_client_states
                   (<[next := set_is_granted (is_granted c) c0]> (client_states w)) w)).
Proof.
  intros Hfi Hc0. unfold parse_field, status_char. rewrite Hfi.
  destruct (is_granted c); cbn [Ascii.eqb Bool.eqb]; unfold bind;
    rewrite (store_slot_run _ _ _ _ Hc0); [reflexivity|].
  destruct w; reflexivity.
Qed.

Lemma parse_field_time ff z next fi w c0 :
  (fi mod 5 = 4)%nat -> client_states w !! next = Some c0 -> in_long_long z ->
  parse_field ff (lld z) next fi w
  = Done (if ff <=? z then S next else next)
      (with_client_states_changed (if ff <=? z then client_states_changed w else true)
         (with_client_states (<[next := set_time z c0]> (client_states w)) w)).
Proof.
  intros Hfi Hc0 Hz. unfold parse_field. rewrite Hfi, (atoll_lld z Hz). unfold bind.
  rewrite (store_slot_run _ _ _ _ Hc0).
  destruct (ff <=? z); [destruct w; reflexivity | reflexivity].
Qed.

(** Reading a variable after a store, and stores that overwrite or commute;
    all hold by computation. *)
Lemma client_states_stored l w : client_states (with_client_states l w) = l.
Proof. reflexivity. Qed.
Lemma client_states_granted g w : client_states (with_granted_state g w) = client_states w.
Proof. reflexivity. Qed.
Lemma client_states_flag b w : client_states (with_client_states_changed b w) = client_states w.
Proof. reflexivity. Qed.
Lemma granted_state_stored l w : granted_state (with_client_states l w) = granted_state w.
Proof. reflexivity. Qed.
Lemma changed_stored l w :
  client_states_changed (with_client_states l w) = client_states_changed w.
Proof. reflexivity. Qed.
Lemma changed_granted g w :
  client_states_changed (with_granted_state g w) = client_states_changed w.
Proof. reflexivity. Qed.
Lemma stored_twice l1 l2 w :
  with_client_states l2 (with_client_states l1 w) = with_client_states l2 w.
Proof. reflexivity. Qed.
Lemma stored_after_granted l g w :
  with_client_states l (with_granted_state g w)
  = with_granted_state g (with_client_states l w).
Proof. reflexivity. Qed.

Create Rewrite HintDb world.
#[local] Hint Rewrite client_states_stored client_states_granted client_states_flag
  granted_state_stored changed_stored changed_granted stored_twice stored_after_granted
  : world.

Lemma parse_entry ff c rest next fi w :
  wf_entry c -> (fi mod 5 = 0)%nat -> (next < length (client_states w))%nat ->
  parse_fields ff (entry_fields c ++ rest) next fi w =
  parse_fields ff rest (if ff <=? time c then S next else next) (5 + fi)
    (with_client_states_changed (if ff <=? time c then client_states_changed w else true)
      (with_granted_state (if is_granted c then Some next else granted_state w)
        (with_client_states (<[next := c]> (client_states w)) w))).
Proof.
  intros (_ & _ & Ht) Hfi Hlt.
  destruct (field_index_mod fi Hfi) as (H1 & H2 & H3 & H4 & _).
  destruct (lookup_lt_is_Some_2 _ _ Hlt) as [c0 Hc0].
  assert (Hins : forall x, <[next := x]> (client_states w) !! next = Some x)
    by (intros x; apply list_lookup_insert_eq; exact Hlt).
  unfold entry_fields. cbn [app parse_fields].
  unfold bind at 1. rewrite (parse_field_host _ _ _ _ _ c0 Hfi Hc0).
  unfold bind at 1. erewrite (parse_field_pid _ _ _ _ _ _ H1)
    by (autorewrite with world; apply Hins).
  autorewrite with world. rewrite list_insert_insert_eq.
  unfold bind at 1. erewrite (parse_field_mode _ _ _ _ _ _ H2)
    by (autorewrite with world; apply Hins).
  autorewrite with world. rewrite list_insert_insert_eq.
  unfold bind at 1. erewrite (parse_field_status _ _ _ _ _ _ H3)
    by (autorewrite with world; apply Hins).
  autorewrite with world. rewrite list_insert_insert_eq.
  unfold bind at 1. erewrite (parse_field_time _ _ _ _ _ _ H4)
    by (first [exact Ht | autorewrite with world; apply Hins]).
  autorewrite with world. rewrite list_insert_insert_eq.
  change (5 + fi)%nat with (S (S (S (S (S fi))))).
  destruct c as [m gr t h p]. reflexivity.
Qed.

Lemma parse_entries ff cs :
  forall next fi w,
  Forall wf_entry cs -> (fi mod 5 = 0)%nat ->
  (next + length cs < length (client_states w))%nat -> granted_in_bounds w ->
  exists w',
    parse_fields ff (flat_map entry_fields cs) next fi w
    = Done (next + length (List.filter (fresh ff) cs))%nat w' /\
    take (next + length (List.filter (fresh ff) cs)) (client_states w')
    = take next (client_states w) ++ List.filter (fresh ff) cs /\
    client_states_changed w'
    = (client_states_changed w || negb (forallb (fresh ff) cs))%bool /\
    length (client_states w') = length (client_states w) /\
    granted_in_bounds w' /\
    surroundings w' = surroundings w /\ state_path w' = state_path w.
Proof.
  induction cs as [|c cs IH]; intros next fi w Hwf Hfi Hlen Hg.
  - exists w. cbn [flat_map parse_fields List.filter length forallb negb].
    rewrite Nat.add_0_r, app_nil_r, orb_false_r. unfold ret. repeat split; exact Hg.
  - inversion Hwf as [|? ? Hc Hcs]; subst. cbn [length] in Hlen.
    cbn [flat_map]. rewrite parse_entry by (assumption || lia).
    destruct (field_index_mod fi Hfi) as (_ & _ & _ & _ & H5).
    match goal with |- context [parse_fields _ _ ?n _ ?w1] =>
      destruct (IH n (5 + fi)%nat w1 Hcs H5) as (w' & Hrun & Htake & Hch & Hl & Hg' & Hs & Hp)
    end.
    + autorewrite with world. rewrite length_insert.
      destruct (ff <=? time c); lia.
    + unfold granted_in_bounds in *. autorewrite with world.
      change (granted_state (with_client_states_changed ?b ?x)) with (granted_state x).
      change (granted_state (with_granted_state ?g ?x)) with g.
      rewrite length_insert. destruct (is_granted c); [lia | exact Hg].
    + autorewrite with world in Htake, Hch, Hl. rewrite length_insert in Hl.
      change (client_states_changed (with_client_states_changed ?b ?x)) with b in Hch.
      exists w'. cbn [List.filter forallb].
      assert (Hfc : fresh ff c = (ff <=? time c)) by reflexivity. rewrite !Hfc.
      destruct (ff <=? time c) eqn:Hfresh; cbn [length negb andb].
      * replace (next + S (length (List.filter (fresh ff) cs)))%nat
          with (S next + length (List.filter (fresh ff) cs))%nat by lia.
        split; [exact Hrun|]. split.
        { rewrite Htake.
          erewrite take_S_r by (apply list_lookup_insert_eq; lia).
          rewrite take_insert_ge by lia. now rewrite <- app_assoc. }
        split; [exact Hch|]. split; [exact Hl|].
        split; [exact Hg'|]. split; [rewrite Hs | rewrite Hp]; reflexivity.
      * split; [exact Hrun|]. split.
        { rewrite Htake. now rewrite take_insert_ge by lia. }
        split; [rewrite Hch; now rewrite orb_true_r|]. split; [exact Hl|].
        split; [exact Hg'|]. split; [rewrite Hs | rewrite Hp]; reflexivity.
Qed.

Lemma load_client_states_dump narwhal now cs w :
  Forall wf_entry cs -> state_file w = dump_text cs ->
  exists w',
    load_client_states narwhal now w = Done 0 w' /\
    n_client_states w' = length (List.filter (fresh (now - timeout_sec narwhal)) cs) /\
    take (n_client_states w') (client_states w')
    = List.filter (fresh (now - timeout_sec narwhal)) cs /\
    client_states_changed w' = negb (forallb (fresh (now - timeout_sec narwhal)) cs) /\
    (n_client_states w' < length (client_states w'))%nat /\
    granted_in_bounds w' /\
    surroundings w' = surroundings w /\
    state_path w' = format_path [lockdir narwhal; "/state"].
Proof.
  intros Hwf Hfile.
  unfold load_client_states, load_state_text, parse_client_states.
  unfold bind, gets, modify, ret. cbn [Z.ltb Z.compare].
  change (state_file (with_state_path ?p ?x)) with (state_file x).
  change (state_text (with_state_text ?t ?x)) with t.
  rewrite Hfile. fold NULNUL.
  rewrite fields_dump_text, count_newlines_dump_text by assumption.
  match goal with |- context [parse_fields ?ff _ 0%nat 0%nat ?w1] =>
    destruct (parse_entries ff cs 0%nat 0%nat w1 Hwf eq_refl)
      as (w' & Hrun & Htake & Hch & Hl & Hg' & Hs & Hp)
  end.
  - match goal with |- (_ < length (client_states ?x))%nat =>
      change (client_states x)
        with (resize (length cs + 1) uninitialised (client_states w))
    end.
    rewrite length_resize. lia.
  - exact I.
  - rewrite Nat.add_0_l in Hrun, Htake. rewrite Hrun.
    match type of Hl with _ = length (client_states ?x) =>
      change (client_states x)
        with (resize (length cs + 1) uninitialised (client_states w)) in Hl
    end.
    rewrite length_resize in Hl.
    match type of Hch with _ = (client_states_changed ?x || _)%bool =>
      change (client_states_changed x) with false in Hch
    end.
    rewrite take_0, app_nil_l in Htake. rewrite orb_false_l in Hch.
    eexists. split; [reflexivity|].
    change (n_client_states (with_n_client_states ?n ?x)) with n.
    change (client_states (with_n_client_states ?n ?x)) with (client_states x).
    change (client_states_changed (with_n_client_states ?n ?x)) with (client_states_changed x).
    change (state_path (with_n_client_states ?n ?x)) with (state_path x).
    split; [reflexivity|]. split; [exact Htake|]. split; [exact Hch|].
    split.
    { rewrite Hl. pose proof (filter_length_le (fresh (now - timeout_sec narwhal)) cs). lia. }
    split; [exact Hg'|].
    split; [transitivity (surroundings w'); [reflexivity | rewrite Hs; reflexivity]
           | rewrite Hp; reflexivity].
Qed.

(** C4: a load keeps exactly the entries with [time >= now - timeout_sec],
    in their order; an entry with a smaller time is dropped and sets
    [client_states_changed]; no stale entry is left in memory; and with
    [timeout_sec = 0] every entry with [time < now] is dropped. *)
Theorem load_keeps_exactly_the_fresh_entries
  (narwhal : Narwhal) (now : Z) (cs : list ClientState) (w : World) :
  Forall wf_entry cs -> state_file w = dump_text cs ->
  exists w',
    load_client_states narwhal now w = Done 0 w' /\
    take (n_client_states w') (client_states w')
    = List.filter (fun c => now - timeout_sec narwhal <=? time c) cs /\
    client_states_changed w'
    = existsb (fun c => time c <? now - timeout_sec narwhal) cs /\
    (forall c, In c (take (n_client_states w') (client_states w')) ->
               ~ time c < now - timeout_sec narwhal) /\
    (timeout_sec narwhal = 0 ->
     forall c, In c cs -> time c < now ->
               ~ In c (take (n_client_states w') (client_states w'))).
Proof.
  intros Hwf Hfile.
  destruct (load_client_states_dump narwhal now cs w Hwf Hfile)
    as (w' & Hrun & _ & Htake & Hch & _).
  exists w'. split; [exact Hrun|]. split; [exact Htake|].
  assert (Hkept : forall c, In c (take (n_client_states w') (client_states w')) ->
                            ~ time c < now - timeout_sec narwhal).
  { intros c Hin. rewrite Htake in Hin. apply filter_In in Hin as [_ Hf].
    unfold fresh in Hf. apply Z.leb_le in Hf. lia. }
  split; [|split; [exact Hkept|]].
  - rewrite Hch. clear. induction cs as [|c cs IH]; [reflexivity|].
    cbn [forallb existsb]. rewrite negb_andb, IH. f_equal.
    unfold fresh. rewrite Z.ltb_antisym. reflexivity.
  - intros H0 c _ Hlt Hin. apply (Hkept c Hin). lia.
Qed.

Lemma load_keeps_exactly_the_fresh_entries_witness :
  exists w',
    load_client_states (mkNarwhal "d" 1000 0) 100
      (fresh_process "host1" "300" (dump_text c4_entries)) = Done 0 w' /\
    take (n_client_states w') (client_states w')
    = List.filter (fun c => 100 - 0 <=? time c) c4_entries /\
    client_states_changed w' = existsb (fun c => time c <? 100 - 0) c4_entries /\
    (forall c, In c (take (n_client_states w') (client_states w')) ->
               ~ time c < 100 - 0) /\
    (0 = 0 ->
     forall c, In c c4_entries -> time c < 100 ->
               ~ In c (take (n_client_states w') (client_states w'))).
Proof.
  apply (load_keeps_exactly_the_fresh_entries (mkNarwhal "d" 1000 0) 100 c4_entries
           (fresh_process "host1" "300" (dump_text c4_entries))).
  - repeat constructor; vm_compute; congruence.
  - reflexivity.
Defined.

(** ** Round trip *)

(** C8, as the code has it: a text the serialiser produced from entries
    whose identifiers are fields, whose times fit [long long] and none of
    which is stale at the time of the load, is written back unchanged. *)
Theorem dump_after_load_is_identity_on_fresh_entries
  (narwhal : Narwhal) (now : Z) (cs : list ClientState) (w : World) :
  Forall wf_entry cs ->
  Forall (fun c => now - timeout_sec narwhal <= time c) cs ->
  state_file w = dump_text cs ->
  exists w', reload_and_dump narwhal now w = Done 0 w' /\ state_file w' = dump_text cs.
Proof.
  intros Hwf Hfresh Hfile.
  destruct (load_client_states_dump narwhal now cs w Hwf Hfile)
    as (w1 & Hrun & _ & Htake & _).
  assert (Hall : List.filter (fresh (now - timeout_sec narwhal)) cs = cs).
  { clear -Hfresh. induction Hfresh as [|c cs Hc _ IH]; [reflexivity|].
    cbn [List.filter]. unfold fresh at 1.
    apply Z.leb_le in Hc. now rewrite Hc, IH. }
  unfold reload_and_dump, bind. rewrite Hrun. cbn [Z.ltb Z.compare].
  unfold dump_client_states, bind, gets, modify, ret, id.
  eexists. split; [reflexivity|].
  cbn [state_file with_event with_state_file]. now rewrite Htake, Hall.
Qed.

Lemma dump_after_load_is_identity_on_fresh_entries_witness :
  exists w',
    reload_and_dump (mkNarwhal "d" 1000 10) 100
      (fresh_process "host1" "300"
         (dump_text [mkClientState true false 95 "host1" "200"])) = Done 0 w' /\
    state_file w' = dump_text [mkClientState true false 95 "host1" "200"].
Proof.
  apply (dump_after_load_is_identity_on_fresh_entries (mkNarwhal "d" 1000 10) 100
           [mkClientState true false 95 "host1" "200"]).
  - repeat constructor; vm_compute; congruence.
  - repeat constructor. vm_compute. congruence.
  - reflexivity.
Defined.

(** C8 fails as stated: a line whose time is older than
    [now - timeout_sec] is not written back. *)
Lemma dump_after_load_drops_a_stale_line :
  exists w',
    reload_and_dump (mkNarwhal "d" 1000 10) 100
      (fresh_process "host1" "300"
         (dump_text [mkClientState false true 5 "host1" "100"])) = Done 0 w' /\
    state_file w' = EmptyString /\
    state_file w' <> dump_text [mkClientState false true 5 "host1" "100"].
Proof.
  eexists. split; [vm_compute; reflexivity|]. split; [reflexivity | discriminate].
Qed.

(** ** The search for the caller's entry *)

Lemma is_mine_true host p c :
  is_mine host p c = true <-> host_name c = host /\ pid c = p.
Proof.
  unfold is_mine. rewrite andb_true_iff, !String.eqb_eq. tauto.
Qed.

(** With at most one entry per (host, pid), the search stops at the one
    entry of the caller. *)
Lemma find_mine_unique host p cs c :
  List.NoDup (map key cs) -> In c cs -> is_mine host p c = true ->
  forall i0, exists k, find_mine host p cs i0 = Some (i0 + k)%nat /\ cs !! k = Some c.
Proof.
  induction cs as [|c' cs IH]; intros Hnd Hin Hm i0; [destruct Hin|].
  cbn [map] in Hnd. apply NoDup_cons_iff in Hnd as [Hnotin Hnd].
  cbn [find_mine]. destruct (is_mine host p c') eqn:Hm'.
  - exists 0%nat. rewrite Nat.add_0_r. split; [reflexivity|].
    destruct Hin as [-> | Hin]; [reflexivity|]. exfalso. apply Hnotin.
    apply is_mine_true in Hm as [Hh Hp]. apply is_mine_true in Hm' as [Hh' Hp'].
    apply in_map_iff. exists c. split; [|exact Hin]. unfold key. congruence.
  - destruct Hin as [-> | Hin]; [congruence|].
    destruct (IH Hnd Hin Hm (S i0)) as (k & Hf & Hl). exists (S k).
    split; [rewrite Hf; f_equal; lia | exact Hl].
Qed.

(** ** The request engine on the caller's entry *)

Lemma grant_now_run (is_write : bool) (w : World) :
  granted_in_bounds w -> exists g, grant_now is_write w = Done g w.
Proof.
  unfold granted_in_bounds, grant_now, bind, gets, ret, load_slot.
  destruct (granted_state w) as [i|]; [|eauto].
  intros Hi. destruct is_write; [eauto|].
  apply lookup_lt_is_Some_2 in Hi as [c Hc]. rewrite Hc. eauto.
Qed.

Lemma request_lock_unsupported (is_write : bool) (now : Z) (w : World) (i : nat) (c : ClientState) :
  granted_in_bounds w ->
  find_mine (my_host_name w) (my_pid w) (take (n_client_states w) (client_states w)) 0 = Some i ->
  client_states w !! i = Some c ->
  (is_granted c || negb (Bool.eqb (is_write_lock c) is_write))%bool = true ->
  request_lock is_write now w = Done (-1) (with_errno ENOTSUP w).
Proof.
  intros Hg Hfind Hc Hbad.
  destruct (grant_now_run is_write w Hg) as [g Hgn].
  unfold request_lock, bind. rewrite Hgn. unfold gets at 1, id.
  rewrite Hfind. unfold load_slot. rewrite Hc, Hbad. reflexivity.
Qed.

(** ** The mutex leaves the state file alone *)

Lemma spin_link_critical_data (deadline : Z) (sp : list Spin) :
  forall w r w', spin_link deadline sp w = Done r w' ->
  critical_data w' = critical_data w /\
  lockfile_path w' = lockfile_path w /\ private_path w' = private_path w.
Proof.
  induction sp as [|s sp IH]; intros w r w' H; [discriminate|].
  cbn [spin_link] in H. unfold bind, gets, modify, ret, id in H.
  destruct (link_result s) as [e|].
  - destruct (clock_after_sleep s >? deadline).
    + injection H as _ <-. unfold critical_data.
      destruct w; cbn. unfold state_writes; cbn. rewrite flat_map_app; cbn.
      now rewrite app_nil_r.
    + apply IH in H as (H & -> & ->). rewrite H. unfold critical_data.
      destruct w; cbn. unfold state_writes; cbn. rewrite flat_map_app; cbn.
      now rewrite app_nil_r.
  - injection H as _ <-. unfold critical_data.
    destruct w; cbn. unfold state_writes; cbn. rewrite flat_map_app; cbn.
    now rewrite app_nil_r.
Qed.

Lemma exclusive_lock_critical_data (narwhal : Narwhal) (r : Round) (w : World) (res : Z) (w' : World) :
  exclusive_lock narwhal r w = Done res w' -> critical_data w' = critical_data w.
Proof.
  unfold exclusive_lock, bind, gets, modify, id. intros H.
  apply spin_link_critical_data in H as (-> & _).
  unfold critical_data. destruct w; cbn. unfold state_writes; cbn.
  rewrite flat_map_app; cbn. now rewrite app_nil_r.
Qed.

Lemma exclusive_unlock_run (r : Round) (w : World) :
  exclusive_unlock r w
  = Done (if unlink_failed r then -1 else 0)
      (with_errno (if errno w =? 0 then unlink_errno r else errno w)
         (with_event (EvUnlink (private_path w))
            (with_event (EvUnlink (lockfile_path w)) w))).
Proof.
  unfold exclusive_unlock, unlink, bind, gets, modify, ret, when, unlink_failed, unlink_errno.
  destruct w as [mh mp sp lp pp cs n g ch st er sf sc]; cbn.
  destruct (unlink_lockfile r), (unlink_private r), (er =? 0); reflexivity.
Qed.

(** C7, as the code has it: the lockfile is unlinked first and the private
    file second, whatever the first call returns; the result is -1 when at
    least one of them fails and 0 otherwise; an error code present on entry
    is in [errno] afterwards on every path; when [errno] was 0 on entry it
    holds the code of the last [unlink] that failed. *)
Theorem exclusive_unlock_order_result_and_errno (r : Round) (w : World) :
  exists w',
    exclusive_unlock r w
    = Done (match unlink_lockfile r, unlink_private r with
            | None, None => 0
            | _, _ => -1
            end) w' /\
    syscalls w' = syscalls w ++ [EvUnlink (lockfile_path w); EvUnlink (private_path w)] /\
    (errno w <> 0 -> errno w' = errno w) /\
    (errno w = 0 ->
     errno w' = match unlink_private r, unlink_lockfile r with
                | Some e, _ => e
                | None, Some e => e
                | None, None => 0
                end) /\
    critical_data w' = critical_data w.
Proof.
  rewrite exclusive_unlock_run. eexists. split.
  { unfold unlink_failed. destruct (unlink_lockfile r), (unlink_private r); reflexivity. }
  split; [destruct w; cbn; now rewrite <- app_assoc|].
  split; [|split].
  - intros Hne. apply Z.eqb_neq in Hne. destruct w; cbn in *. now rewrite Hne.
  - intros He. destruct w; cbn in *. subst. reflexivity.
  - unfold critical_data, state_writes. destruct w; cbn.
    rewrite !flat_map_app. cbn. now rewrite !app_nil_r.
Qed.

(** C7 fails as stated: when both calls fail, the code left in [errno] is
    the one of the second failure, not of the first. *)
Lemma exclusive_unlock_keeps_the_second_failure :
  exists w',
    exclusive_unlock (mkRound 0 [] 0 0 (Some 2) (Some 13))
      (fresh_process "host1" "100" EmptyString) = Done (-1) w' /\
    errno w' = 13 /\ errno w' <> 2.
Proof. eexists. split; [reflexivity|]. split; [reflexivity | discriminate]. Qed.

(** C5: an acquire whose load finds an entry of the caller that is granted
    already, or asks for the other mode, fails with ENOTSUP, and the state
    file is not written. *)
Theorem acquire_over_own_entry_is_unsupported
  (is_write : bool) (narwhal : Narwhal) (r : Round) (env : list Round)
  (cs : list ClientState) (c : ClientState) (w w1 : World) :
  Forall wf_entry cs -> state_file w = dump_text cs ->
  exclusive_lock narwhal r w = Done 0 w1 ->
  List.NoDup (map key (List.filter (fun e => clock_parse r - timeout_sec narwhal <=? time e) cs)) ->
  In c (List.filter (fun e => clock_parse r - timeout_sec narwhal <=? time e) cs) ->
  host_name c = my_host_name w -> pid c = my_pid w ->
  is_granted c = true \/ is_write_lock c <> is_write ->
  exists w',
    narwhal_lock is_write narwhal (r :: env) w = Done (-1) w' /\
    errno w' = ENOTSUP /\
    state_file w' = state_file w /\
    state_writes w' = state_writes w.
Proof.
  intros Hwf Hfile Hlock Hnd Hin Hh Hp Hbad.
  pose proof (exclusive_lock_critical_data _ _ _ _ _ Hlock) as Hcrit.
  assert (Hfile1 : state_file w1 = dump_text cs).
  { rewrite <- Hfile. unfold critical_data in Hcrit. congruence. }
  destruct (load_client_states_dump narwhal (clock_parse r) cs w1 Hwf Hfile1)
    as (w2 & Hload & Hn & Htake & _ & _ & Hg & Hsur & _).
  assert (Hmine : is_mine (my_host_name w2) (my_pid w2) c = true).
  { apply is_mine_true. unfold surroundings in Hsur. unfold critical_data in Hcrit.
    split; congruence. }
  destruct (find_mine_unique _ _ _ c Hnd Hin Hmine 0%nat) as (k & Hfind & Hk).
  cbn [Nat.add] in Hfind. unfold fresh in Htake. rewrite <- Htake in Hfind, Hk.
  apply lookup_take_Some in Hk as [Hk _].
  assert (Hcond : (is_granted c || negb (Bool.eqb (is_write_lock c) is_write))%bool = true).
  { destruct Hbad as [-> | Hne]; [reflexivity|].
    destruct (is_granted c), (is_write_lock c), is_write; try reflexivity; congruence. }
  pose proof (request_lock_unsupported is_write (clock_request r) w2 k c Hg Hfind Hk Hcond)
    as Hreq.
  cbn [narwhal_lock]. unfold bind at 1. rewrite Hlock. cbn [Z.ltb Z.compare].
  unfold bind at 1. rewrite Hload. cbn [Z.ltb Z.compare].
  unfold bind at 1. rewrite Hreq.
  unfold bind at 1. rewrite exclusive_unlock_run.
  replace (((if unlink_failed r then -1 else 0) <? 0) || (-1 <? 0))%bool with true
    by (destruct (unlink_failed r); reflexivity).
  unfold ret. eexists. split; [reflexivity|].
  unfold surroundings in Hsur. unfold critical_data in Hcrit.
  injection Hsur as E1 E2 E3 E4 E5 E6 E7. injection Hcrit as F1 F2 F3 F4 F5 F6 F7 F8 F9 F10.
  split; [reflexivity|]. split.
  - destruct w2; cbn in *. congruence.
  - rewrite <- F10. unfold state_writes in *. destruct w2; cbn in *. subst.
    rewrite !flat_map_app. cbn. now rewrite !app_nil_r.
Qed.

Lemma acquire_over_own_entry_is_unsupported_witness :
  exists w',
    narwhal_lock true (mkNarwhal "d" 1000 10) [quiet 100]
      (fresh_process "host1" "100"
         (dump_text [mkClientState false true 100 "host1" "100"])) = Done (-1) w' /\
    errno w' = ENOTSUP /\
    state_file w' = dump_text [mkClientState false true 100 "host1" "100"] /\
    state_writes w' = [].
Proof.
  eapply (acquire_over_own_entry_is_unsupported true (mkNarwhal "d" 1000 10) (quiet 100) []
            [mkClientState false true 100 "host1" "100"]
            (mkClientState false true 100 "host1" "100")
            (fresh_process "host1" "100"
               (dump_text [mkClientState false true 100 "host1" "100"]))).
  - repeat constructor; vm_compute; congruence.
  - reflexivity.
  - vm_compute. reflexivity.
  - vm_compute. repeat constructor. intros [].
  - vm_compute. left. reflexivity.
  - reflexivity.
  - reflexivity.
  - left. reflexivity.
Defined.

(** C9: when the caller has a pending entry of the requested mode, the
    entry becomes granted exactly when [grant_now] holds, its time becomes
    [now], [client_states_changed] is raised by either change, the state
    file is rewritten exactly when [client_states_changed] is set after
    that, and the result is [grant_now]. *)
Theorem request_lock_on_pending_entry_of_same_mode
  (is_write : bool) (now : Z) (w : World) (c : ClientState) :
  granted_in_bounds w ->
  List.NoDup (map key (take (n_client_states w) (client_states w))) ->
  In c (take (n_client_states w) (client_states w)) ->
  host_name c = my_host_name w -> pid c = my_pid w ->
  is_granted c = false -> is_write_lock c = is_write ->
  exists (i : nat) (g : bool) (w' : World),
    take (n_client_states w) (client_states w) !! i = Some c /\
    grant_now is_write w = Done g w /\
    request_lock is_write now w = Done (bool_to_int g) w' /\
    client_states w'
    = <[i := mkClientState (is_write_lock c) g now (host_name c) (pid c)]> (client_states w) /\
    n_client_states w' = n_client_states w /\
    client_states_changed w'
    = (client_states_changed w || g || negb (time c =? now))%bool /\
    (if client_states_changed w'
     then state_file w' = dump_text (take (n_client_states w') (client_states w')) /\
          state_writes w' = state_writes w ++ [state_file w']
     else state_file w' = state_file w /\ state_writes w' = state_writes w) /\
    errno w' = errno w.
Proof.
  intros Hg Hnd Hin Hh Hp Hpend Hmode.
  assert (Hmine : is_mine (my_host_name w) (my_pid w) c = true)
    by (apply is_mine_true; auto).
  destruct (find_mine_unique _ _ _ c Hnd Hin Hmine 0%nat) as (i & Hfind & Hi).
  cbn [Nat.add] in Hfind.
  destruct (grant_now_run is_write w Hg) as [g Hgn].
  exists i, g.
  pose proof Hi as Hi'. apply lookup_take_Some in Hi' as [Hslot Hlt].
  assert (Hlen : (i < length (client_states w))%nat)
    by (apply lookup_lt_is_Some; eauto).
  unfold request_lock, bind. rewrite Hgn. unfold gets at 1, id.
  rewrite Hfind. unfold load_slot. rewrite Hslot, Hpend, Hmode, eqb_reflx.
  cbn [orb negb].
  clear Hgn Hfind Hmine Hnd Hin Hg.
  destruct w as [mh mp sp lp pp cs n gs ch st er sf sc].
  destruct c as [m gr t h p].
  cbn [client_states n_client_states client_states_changed state_file errno
       is_granted is_write_lock time host_name pid my_host_name my_pid] in *.
  subst gr m h p.
  unfold dump_client_states, state_writes.
  unfold when, store_slot, modify, gets, ret, bind, id.
  assert (Hnow : (t =? now) = true -> t = now) by apply Z.eqb_eq.
  destruct g; destruct (t =? now) eqn:Ht; cbn [negb].
  all: repeat first
    [ rewrite Hslot
    | rewrite list_lookup_insert_eq by assumption
    | rewrite list_insert_insert_eq
    | progress cbn [client_states with_client_states with_client_states_changed
        set_is_granted set_time is_write_lock is_granted time host_name pid
        my_host_name my_pid state_path lockfile_path private_path n_client_states
        granted_state client_states_changed state_text errno state_file syscalls
        with_state_file with_event Z.ltb Z.compare orb] ].
  all: rewrite ?orb_true_r, ?orb_false_r.
  all: try (rewrite (Hnow eq_refl) in *).
  all: unfold set_is_granted, set_time;
       cbn [is_write_lock is_granted time host_name pid].
  all: try (destruct ch).
  all: cbn [client_states with_client_states with_client_states_changed
        my_host_name my_pid state_path lockfile_path private_path n_client_states
        granted_state client_states_changed state_text errno state_file syscalls
        with_state_file with_event Z.ltb Z.compare orb].
  all: eexists; split; [exact Hi|]; split; [reflexivity|]; split; [reflexivity|].
  all: cbn [client_states n_client_states client_states_changed state_file errno syscalls].
  all: rewrite ?flat_map_app; cbn [flat_map app]; rewrite ?app_nil_r.
  all: try (rewrite list_insert_id by exact Hslot).
  all: repeat split; try reflexivity.
  all: cbn [syscalls state_file with_event with_state_file with_client_states_changed
            with_client_states];
       rewrite ?flat_map_app; cbn [flat_map app]; rewrite ?app_nil_r; try reflexivity.
Qed.

Lemma request_lock_on_pending_entry_of_same_mode_witness :
  exists (i : nat) (g : bool) (w' : World),
    take (n_client_states c9_world) (client_states c9_world) !! i
    = Some (mkClientState true false 90 "host1" "100") /\
    grant_now true c9_world = Done g c9_world /\
    request_lock true 100 c9_world = Done (bool_to_int g) w' /\
    client_states w'
    = <[i := mkClientState true g 100 "host1" "100"]> (client_states c9_world) /\
    n_client_states w' = n_client_states c9_world /\
    client_states_changed w'
    = (client_states_changed c9_world || g || negb (90 =? 100))%bool /\
    (if client_states_changed w'
     then state_file w' = dump_text (take (n_client_states w') (client_states w')) /\
          state_writes w' = state_writes c9_world ++ [state_file w']
     else state_file w' = state_file c9_world /\ state_writes w' = state_writes c9_world) /\
    errno w' = errno c9_world.
Proof.
  apply (request_lock_on_pending_entry_of_same_mode true 100 c9_world
           (mkClientState true false 90 "host1" "100")).
  - exact I.
  - vm_compute. repeat constructor. intros [].
  - left. reflexivity.
  - reflexivity.
  - reflexivity.
  - reflexivity.
  - reflexivity.
Defined.

(** ** Scenarios on which the code departs from its description *)

(** C1: with a granted reader and a pending writer in the state file, a
    third process asking for a read lock is granted on its first pass; its
    entry is appended as R G, in front of the writer still pending. *)
Theorem reader_overtakes_pending_writer :
  exists w',
    narwhal_read_lock cfg [quiet 100]
      (fresh_process "host1" "300"
         (dump_text [mkClientState false true 100 "host1" "100";
                     mkClientState true false 100 "host1" "200"])) = Done 0 w' /\
    state_file w'
    = dump_text [mkClientState false true 100 "host1" "100";
                 mkClientState true false 100 "host1" "200";
                 mkClientState false true 100 "host1" "300"].
Proof. eexists. split; [vm_compute; reflexivity | vm_compute; reflexivity]. Qed.

(** C2: when the only granted entry of the file is stale, the load drops
    it but [granted_state] still points at its slot, so the first pass of
    an acquire-write is not granted and persists a pending entry; the grant
    comes on the second pass. *)
Theorem writer_waits_behind_reaped_entry :
  (exists w',
     (load_client_states cfg 100 ;;; request_lock true 100)
       (fresh_process "host1" "200"
          (dump_text [mkClientState false true 5 "host1" "100"])) = Done 0 w' /\
     n_client_states w' = 1%nat /\
     granted_state w' = Some 0%nat /\
     state_file w' = dump_text [mkClientState true false 100 "host1" "200"]) /\
  (exists w',
     narwhal_write_lock cfg [quiet 100; quiet 100]
       (fresh_process "host1" "200"
          (dump_text [mkClientState false true 5 "host1" "100"])) = Done 0 w' /\
     state_writes w'
     = [dump_text [mkClientState true false 100 "host1" "200"];
        dump_text [mkClientState true true 100 "host1" "200"]]).
Proof.
  split.
  - eexists. split; [vm_compute; reflexivity|].
    split; [reflexivity|]. split; [reflexivity | vm_compute; reflexivity].
  - eexists. split; vm_compute; reflexivity.
Qed.

(** C6: a release that finds the caller's entry leaves [n_client_states]
    as it was, so the file written back has as many lines as before: the
    only entry stays, and in a longer file the last entry appears twice. *)
Theorem release_writes_back_as_many_entries :
  (exists w',
     narwhal_unlock cfg (quiet 100)
       (fresh_process "host1" "100"
          (dump_text [mkClientState false true 100 "host1" "100"])) = Done 0 w' /\
     state_file w' = dump_text [mkClientState false true 100 "host1" "100"]) /\
  (exists w',
     narwhal_unlock cfg (quiet 100)
       (fresh_process "host1" "100"
          (dump_text [mkClientState false true 100 "host1" "100";
                      mkClientState false true 100 "host1" "200";
                      mkClientState false true 100 "host1" "300"])) = Done 0 w' /\
     state_file w'
     = dump_text [mkClientState false true 100 "host1" "200";
                  mkClientState false true 100 "host1" "300";
                  mkClientState false true 100 "host1" "300"]).
Proof.
  split; (eexists; split; [vm_compute; reflexivity | vm_compute; reflexivity]).
Qed.

(** C3: two readers acquire, the first one releases; all three calls
    return success and the state file ends with the second reader's line
    twice. *)
Theorem duplicate_entry_after_release :
  exists w1 w2 w3,
    narwhal_read_lock cfg [quiet 100] (fresh_process "host1" "100" EmptyString)
    = Done 0 w1 /\
    narwhal_read_lock cfg [quiet 100] (fresh_process "host1" "200" (state_file w1))
    = Done 0 w2 /\
    narwhal_unlock cfg (quiet 100) (sees w1 w2) = Done 0 w3 /\
    state_file w3
    = dump_text [mkClientState false true 100 "host1" "200";
                 mkClientState false true 100 "host1" "200"] /\
    ~ List.NoDup (map key [mkClientState false true 100 "host1" "200";
                           mkClientState false true 100 "host1" "200"]).
Proof.
  do 3 eexists.
  split; [vm_compute; reflexivity|]. split; [vm_compute; reflexivity|].
  split; [vm_compute; reflexivity|]. split; [vm_compute; reflexivity|].
  intros H. inversion H as [|? ? Hnotin _]. apply Hnotin. left. reflexivity.
Qed.

(** C10: one process alone.  It takes and releases a read lock; the entry
    stays in the file.  Later than [timeout_sec] it asks for a write lock:
    the load drops the old entry, the request is not granted and a pending
    entry is written.  When that call then fails (the mutex times out on
    the next pass, or an [unlink] fails on the first), a release that still
    loads the pending entry stops at the assertion. *)
Theorem release_meets_own_pending_entry :
  exists w1 w2,
    narwhal_read_lock cfg [quiet 0] (fresh_process "host1" "100" EmptyString)
    = Done 0 w1 /\
    narwhal_unlock cfg (quiet 1) w1 = Done 0 w2 /\
    state_file w2 = dump_text [mkClientState false true 0 "host1" "100"] /\
    (exists w3,
       narwhal_write_lock cfg [quiet 100; mutex_timeout 100] w2 = Done (-1) w3 /\
       errno w3 = ETIMEDOUT /\
       state_file w3 = dump_text [mkClientState true false 100 "host1" "100"] /\
       narwhal_unlock (mkNarwhal "d" 1000 20) (quiet 111) w3 = Crashed AssertionFailed) /\
    (exists w3,
       narwhal_write_lock cfg [unlink_fails 100] w2 = Done (-1) w3 /\
       state_file w3 = dump_text [mkClientState true false 100 "host1" "100"] /\
       narwhal_unlock cfg (quiet 100) w3 = Crashed AssertionFailed).
Proof.
  do 2 eexists. split; [vm_compute; reflexivity|]. split; [vm_compute; reflexivity|].
  split; [vm_compute; reflexivity|].
  split.
  - eexists. split; [vm_compute; reflexivity|]. split; [reflexivity|].
    split; vm_compute; reflexivity.
  - eexists. split; [vm_compute; reflexivity|]. split; vm_compute; reflexivity.
Qed.

(** * Further properties of the code *)

(** ** The spin loop of the mutex *)

Lemma spin_link_contended (deadline : Z) (fails : list Spin) (s : Spin) (rest : list Spin) :
  Forall (spins_on deadline) fails -> link_result s = None ->
  forall w, exists w',
    spin_link deadline (fails ++ s :: rest) w = Done 0 w' /\
    errno w' = errno_after_links fails (errno w) /\
    syscalls w'
    = syscalls w ++ repeat (EvLink (private_path w) (lockfile_path w)) (S (length fails)).
Proof.
  intros Hfails Hs. induction Hfails as [|f fs [Hf Hc] _ IH]; intros w.
  - cbn [app spin_link]. unfold bind, gets, modify, ret, id. rewrite Hs.
    eexists. split; [reflexivity|]. split; reflexivity.
  - cbn [app spin_link]. unfold bind at 1 2 3, gets, modify, id.
    destruct (link_result f) as [e|] eqn:Hl; [|contradiction].
    replace (clock_after_sleep f >? deadline) with false by (rewrite Z.gtb_ltb; symmetry; apply Z.ltb_ge; lia).
    destruct (IH (with_errno e (with_event (EvLink (private_path w) (lockfile_path w)) w)))
      as (w' & Hrun & He & Hsc).
    exists w'. split; [exact Hrun|]. split.
    + rewrite He. unfold errno_after_links. cbn [fold_left]. now rewrite Hl.
    + rewrite Hsc. cbn [syscalls private_path lockfile_path with_errno with_event length repeat].
      now rewrite <- app_assoc.
Qed.

Lemma spin_link_timed_out (deadline : Z) (fails : list Spin) (s : Spin) (rest : list Spin) :
  Forall (spins_on deadline) fails ->
  link_result s <> None -> deadline < clock_after_sleep s ->
  forall w, exists w',
    spin_link deadline (fails ++ s :: rest) w = Done (-1) w' /\
    errno w' = ETIMEDOUT /\
    syscalls w'
    = syscalls w ++ repeat (EvLink (private_path w) (lockfile_path w)) (S (length fails)).
Proof.
  intros Hfails Hs Hlate. induction Hfails as [|f fs [Hf Hc] _ IH]; intros w.
  - cbn [app spin_link]. unfold bind, gets, modify, ret, id.
    destruct (link_result s) as [e|]; [|contradiction].
    replace (clock_after_sleep s >? deadline) with true by (rewrite Z.gtb_ltb; symmetry; apply Z.ltb_lt; lia).
    eexists. split; [reflexivity|]. split; reflexivity.
  - cbn [app spin_link]. unfold bind at 1 2 3, gets, modify, id.
    destruct (link_result f) as [e|] eqn:Hl; [|contradiction].
    replace (clock_after_sleep f >? deadline) with false by (rewrite Z.gtb_ltb; symmetry; apply Z.ltb_ge; lia).
    destruct (IH (with_errno e (with_event (EvLink (private_path w) (lockfile_path w)) w)))
      as (w' & Hrun & He & Hsc).
    exists w'. split; [exact Hrun|]. split; [exact He|].
    rewrite Hsc. cbn [syscalls private_path lockfile_path with_errno with_event length repeat].
    now rewrite <- app_assoc.
Qed.

Lemma exclusive_lock_contended
  (narwhal : Narwhal) (r : Round) (w : World) (fails : list Spin) (s : Spin) (rest : list Spin) :
  spins r = fails ++ s :: rest ->
  Forall (spins_on (clock_deadline r + timeout_sec narwhal)) fails ->
  link_result s = None ->
  exists w',
    exclusive_lock narwhal r w = Done 0 w' /\
    errno w' = errno_after_links fails (errno w) /\
    syscalls w'
    = syscalls w ++ EvCreat (private_file narwhal w)
        :: repeat (EvLink (private_file narwhal w) (lock_file narwhal)) (S (length fails)) /\
    lockfile_path w' = lock_file narwhal /\ private_path w' = private_file narwhal w.
Proof.
  intros Hsp Hfails Hs. unfold exclusive_lock, bind, gets, modify, id. rewrite Hsp.
  match goal with |- context [spin_link _ _ ?w0] =>
    destruct (spin_link_contended _ fails s rest Hfails Hs w0) as (w' & Hrun & He & Hsc);
    destruct (spin_link_critical_data _ _ _ _ _ Hrun) as (_ & Hlp & Hpp)
  end.
  exists w'. split; [exact Hrun|]. split; [exact He|]. split.
  - rewrite Hsc. cbn [syscalls private_path lockfile_path with_lockfile_path with_event
                      with_private_path].
    unfold private_file, lock_file. now rewrite <- app_assoc.
  - rewrite Hlp, Hpp. split; reflexivity.
Qed.

Lemma exclusive_lock_timed_out
  (narwhal : Narwhal) (r : Round) (w : World) (fails : list Spin) (s : Spin) (rest : list Spin) :
  spins r = fails ++ s :: rest ->
  Forall (spins_on (clock_deadline r + timeout_sec narwhal)) fails ->
  link_result s <> None -> clock_deadline r + timeout_sec narwhal < clock_after_sleep s ->
  exists w',
    exclusive_lock narwhal r w = Done (-1) w' /\
    errno w' = ETIMEDOUT /\
    syscalls w'
    = syscalls w ++ EvCreat (private_file narwhal w)
        :: repeat (EvLink (private_file narwhal w) (lock_file narwhal)) (S (length fails)).
Proof.
  intros Hsp Hfails Hs Hlate. unfold exclusive_lock, bind, gets, modify, id. rewrite Hsp.
  match goal with |- context [spin_link _ _ ?w0] =>
    destruct (spin_link_timed_out _ fails s rest Hfails Hs Hlate w0) as (w' & Hrun & He & Hsc)
  end.
  exists w'. split; [exact Hrun|]. split; [exact He|].
  rewrite Hsc. cbn [syscalls private_path lockfile_path with_lockfile_path with_event
                    with_private_path].
  unfold private_file, lock_file. now rewrite <- app_assoc.
Qed.



(** ** Where the parser leaves [granted_state] *)

Lemma parse_entries_granted ff cs :
  forall next fi w n' w',
  Forall wf_entry cs -> (fi mod 5 = 0)%nat ->
  (next + length cs < length (client_states w))%nat ->
  parse_fields ff (flat_map entry_fields cs) next fi w = Done n' w' ->
  (existsb is_granted cs = false -> granted_state w' = granted_state w) /\
  (existsb is_granted cs = true -> granted_state w' <> None) /\
  (forallb (fresh ff) cs = true ->
   granted_state w' = match last_granted cs with
                      | Some j => Some (next + j)%nat
                      | None => granted_state w
                      end).
Proof.
  induction cs as [|c cs IH]; intros next fi w n' w' Hwf Hfi Hlen Hrun.
  - cbn in Hrun. injection Hrun as _ <-. cbn. repeat split; auto; discriminate.
  - inversion Hwf as [|? ? Hc Hcs]; subst. cbn [length] in Hlen.
    cbn [flat_map] in Hrun. rewrite parse_entry in Hrun by (assumption || lia).
    destruct (field_index_mod fi Hfi) as (_ & _ & _ & _ & H5).
    match type of Hrun with parse_fields _ _ ?n1 _ ?w1 = _ =>
      assert (Hlen1 : (n1 + length cs < length (client_states w1))%nat)
    end.
    { autorewrite with world. rewrite length_insert. destruct (ff <=? time c); lia. }
    destruct (IH _ _ _ _ _ Hcs H5 Hlen1 Hrun) as (I1 & I2 & I3).
    change (granted_state (with_client_states_changed ?b ?x)) with (granted_state x) in *.
    change (granted_state (with_granted_state ?g ?x)) with g in *.
    cbn [existsb forallb last_granted].
    split; [|split].
    + intros H. apply orb_false_iff in H as [Hg Hcs']. rewrite Hg in *. auto.
    + intros H. destruct (existsb is_granted cs) eqn:E; [auto|].
      rewrite orb_false_r in H. rewrite H in *. rewrite I1 by reflexivity. discriminate.
    + intros H. apply andb_true_iff in H as [Hf Hfs]. unfold fresh in Hf.
      rewrite Hf in I3. rewrite (I3 Hfs).
      destruct (last_granted cs) as [j|]; [f_equal; lia|].
      destruct (is_granted c); [f_equal; lia | reflexivity].
Qed.

Lemma load_client_states_granted narwhal now cs w r w' :
  Forall wf_entry cs -> state_file w = dump_text cs ->
  load_client_states narwhal now w = Done r w' ->
  (existsb is_granted cs = false -> granted_state w' = None) /\
  (existsb is_granted cs = true -> granted_state w' <> None) /\
  (forallb (fresh (now - timeout_sec narwhal)) cs = true ->
   granted_state w' = last_granted cs).
Proof.
  intros Hwf Hfile.
  unfold load_client_states, load_state_text, parse_client_states.
  unfold bind, gets, modify, ret. cbn [Z.ltb Z.compare].
  change (state_file (with_state_path ?p ?x)) with (state_file x).
  change (state_text (with_state_text ?t ?x)) with t.
  rewrite Hfile. fold NULNUL.
  rewrite fields_dump_text, count_newlines_dump_text by assumption.
  match goal with |- context [parse_fields ?ff ?l 0%nat 0%nat ?w1] =>
    destruct (parse_fields ff l 0%nat 0%nat w1) as [n1 w2|] eqn:Hrun; [|discriminate]
  end.
  intros H. injection H as _ <-.
  match type of Hrun with parse_fields _ _ _ _ ?w1 = _ =>
    assert (Hlen1 : (0 + length cs < length (client_states w1))%nat)
  end.
  { match goal with |- (_ < length (client_states ?x))%nat =>
      change (client_states x)
        with (resize (length cs + 1) uninitialised (client_states w))
    end.
    rewrite length_resize. lia. }
  destruct (parse_entries_granted _ _ 0%nat 0%nat _ _ _ Hwf eq_refl Hlen1 Hrun) as (I1 & I2 & I3).
  change (granted_state (with_n_client_states ?n ?x)) with (granted_state x).
  match type of I1 with _ -> _ = granted_state ?x =>
    change (granted_state x) with (@None nat) in *
  end.
  split; [exact I1|]. split; [exact I2|].
  intros Hf. rewrite (I3 Hf). destruct (last_granted cs); reflexivity.
Qed.

(** ** A request by a process that has no entry *)

Lemma find_mine_absent host p cs :
  (forall c, In c cs -> is_mine host p c = false) ->
  forall i0, find_mine host p cs i0 = None.
Proof.
  induction cs as [|c cs IH]; intros H i0; [reflexivity|].
  cbn [find_mine]. rewrite (H c) by (left; reflexivity).
  apply IH. intros c' Hin. apply H. right. exact Hin.
Qed.

Lemma request_lock_new_entry (is_write : bool) (now : Z) (w : World) (g : bool) :
  grant_now is_write w = Done g w ->
  find_mine (my_host_name w) (my_pid w) (take (n_client_states w) (client_states w)) 0 = None ->
  (n_client_states w < length (client_states w))%nat ->
  exists w',
    request_lock is_write now w = Done (bool_to_int g) w' /\
    state_file w'
    = dump_text (take (n_client_states w) (client_states w)
                 ++ [mkClientState is_write g now (my_host_name w) (my_pid w)]) /\
    syscalls w' = syscalls w ++ [EvWrite (state_path w) (state_file w')] /\
    errno w' = errno w /\
    lockfile_path w' = lockfile_path w /\ private_path w' = private_path w /\
    take (n_client_states w') (client_states w')
    = take (n_client_states w) (client_states w)
      ++ [mkClientState is_write g now (my_host_name w) (my_pid w)].
Proof.
  intros Hgn Hfind Hlt.
  destruct (lookup_lt_is_Some_2 _ _ Hlt) as [c0 Hc0].
  unfold request_lock, bind. rewrite Hgn. unfold gets at 1, id. rewrite Hfind.
  unfold store_slot. rewrite Hc0.
  unfold modify, gets, dump_client_states, bind, ret, id.
  destruct w as [mh mp sp lp pp cs n gs ch st er sf sc].
  cbn [client_states n_client_states client_states_changed state_file errno syscalls
       my_host_name my_pid state_path lockfile_path private_path
       with_client_states with_client_states_changed with_n_client_states
       with_state_file with_event Z.ltb Z.compare] in *.
  eexists. split; [reflexivity|].
  cbn [client_states n_client_states client_states_changed state_file errno syscalls
       my_host_name my_pid state_path lockfile_path private_path
       with_client_states with_client_states_changed with_n_client_states
       with_state_file with_event].
  erewrite take_S_r by (apply list_lookup_insert_eq; exact Hlt).
  rewrite take_insert_ge by lia. repeat split; reflexivity.
Qed.

Lemma unlinks_succeed (r : Round) :
  unlink_lockfile r = None -> unlink_private r = None ->
  unlink_failed r = false /\ unlink_errno r = 0.
Proof. intros H1 H2. unfold unlink_failed, unlink_errno. now rewrite H1, H2. Qed.

Lemma acquire_pass_new_entry
  (is_write : bool) (narwhal : Narwhal) (r : Round) (env : list Round)
  (cs : list ClientState) (w w1 : World) :
  Forall wf_entry cs -> state_file w = dump_text cs ->
  exclusive_lock narwhal r w = Done 0 w1 ->
  (forall c, In c (List.filter (fresh (clock_parse r - timeout_sec narwhal)) cs) ->
             is_mine (my_host_name w) (my_pid w) c = false) ->
  exists w2 g w3,
    load_client_states narwhal (clock_parse r) w1 = Done 0 w2 /\
    take (n_client_states w2) (client_states w2)
    = List.filter (fresh (clock_parse r - timeout_sec narwhal)) cs /\
    grant_now is_write w2 = Done g w2 /\
    narwhal_lock is_write narwhal (r :: env) w
    = (if unlink_failed r then Done (-1) w3
       else if g then Done 0 w3 else narwhal_lock is_write narwhal env w3) /\
    state_file w3
    = dump_text (List.filter (fresh (clock_parse r - timeout_sec narwhal)) cs
                 ++ [mkClientState is_write g (clock_request r)
                       (my_host_name w) (my_pid w)]) /\
    state_writes w3 = state_writes w ++ [state_file w3] /\
    errno w3 = (if errno w1 =? 0 then unlink_errno r else errno w1) /\
    syscalls w3
    = syscalls w1 ++ [EvWrite (format_path [lockdir narwhal; "/state"]) (state_file w3);
                      EvUnlink (lockfile_path w1); EvUnlink (private_path w1)].
Proof.
  intros Hwf Hfile Hlock Hnone.
  pose proof (exclusive_lock_critical_data _ _ _ _ _ Hlock) as Hcrit.
  unfold critical_data in Hcrit.
  injection Hcrit as F1 F2 F3 F4 F5 F6 F7 F8 F9 F10.
  assert (Hfile1 : state_file w1 = dump_text cs) by congruence.
  destruct (load_client_states_dump narwhal (clock_parse r) cs w1 Hwf Hfile1)
    as (w2 & Hload & Hn & Htake & _ & Hlt & Hg & Hsur & Hsp).
  unfold surroundings in Hsur. injection Hsur as E1 E2 E3 E4 E5 E6 E7.
  destruct (grant_now_run is_write w2 Hg) as [g Hgn].
  assert (Hfind : find_mine (my_host_name w2) (my_pid w2)
                    (take (n_client_states w2) (client_states w2)) 0 = None).
  { apply find_mine_absent. intros c Hin. rewrite Htake in Hin.
    rewrite E1, E2, F1, F2. apply Hnone. exact Hin. }
  destruct (request_lock_new_entry is_write (clock_request r) w2 g Hgn Hfind Hlt)
    as (w2' & Hreq & Hsf & Hsc & Her & Hlp & Hpp & _).
  exists w2, g,
    (with_errno (if errno w2' =? 0 then unlink_errno r else errno w2')
       (with_event (EvUnlink (private_path w2'))
          (with_event (EvUnlink (lockfile_path w2')) w2'))).
  split; [exact Hload|]. split; [exact Htake|]. split; [exact Hgn|].
  cbn [narwhal_lock]. unfold bind at 1. rewrite Hlock. cbn [Z.ltb Z.compare].
  unfold bind at 1. rewrite Hload. cbn [Z.ltb Z.compare].
  unfold bind at 1. rewrite Hreq.
  unfold bind at 1. rewrite exclusive_unlock_run.
  unfold ret. split.
  { destruct (unlink_failed r); [reflexivity|]. destruct g; reflexivity. }
  unfold state_writes in *.
  cbn [state_file syscalls errno with_errno with_event].
  rewrite Hsc, Hsf, Htake, Hlp, Hpp, Hsp, Her, E1, E2, E3, E4, E5, E7, F1, F2.
  split; [reflexivity|]. split; [|split].
  - rewrite !flat_map_app. cbn [flat_map app]. rewrite !app_nil_r.
    rewrite F10. reflexivity.
  - reflexivity.
  - rewrite <- !app_assoc. reflexivity.
Qed.

Lemma grant_now_none (is_write : bool) (w : World) :
  granted_state w = None -> grant_now is_write w = Done true w.
Proof. intros H. unfold grant_now, bind, gets. now rewrite H. Qed.

Lemma grant_now_write_some (w : World) :
  granted_state w <> None -> grant_now true w = Done false w.
Proof.
  intros H. unfold grant_now, bind, gets.
  destruct (granted_state w); [reflexivity | contradiction].
Qed.

Lemma grant_now_read_some (w : World) (j : nat) (c : ClientState) :
  granted_state w = Some j -> client_states w !! j = Some c ->
  grant_now false w = Done (negb (is_write_lock c)) w.
Proof.
  intros H Hc. unfold grant_now, bind, gets, load_slot, ret. now rewrite H, Hc.
Qed.

Lemma last_granted_lookup (cs : list ClientState) :
  match last_granted cs with
  | Some j => exists c, cs !! j = Some c /\ last_granted_entry cs = Some c
  | None => last_granted_entry cs = None
  end.
Proof.
  induction cs as [|c cs IH]; [reflexivity|].
  cbn [last_granted last_granted_entry].
  destruct (last_granted cs) as [j|].
  - destruct IH as (x & Hx & ->). exists x. auto.
  - rewrite IH. destruct (is_granted c); [exists c; auto | reflexivity].
Qed.

Lemma all_fresh_filter (ff : Z) (cs : list ClientState) :
  Forall (fun c => ff <= time c) cs ->
  forallb (fresh ff) cs = true /\ List.filter (fresh ff) cs = cs.
Proof.
  induction 1 as [|c cs Hc _ [IH1 IH2]]; [split; reflexivity|].
  cbn [forallb List.filter]. unfold fresh at 1 3.
  apply Z.leb_le in Hc. rewrite Hc, IH1, IH2. split; reflexivity.
Qed.

(** X3: the first acquire on an empty (or just created) state file, in
    either mode.  Once a [link] succeeds before the deadline and both
    [unlink] calls succeed, the call returns 0 on its first pass; the file
    holds the one line of the caller, granted; the lock directory has seen
    one [creat], one [link] per attempt, one write of the state file and the
    two [unlink] calls, in this order.  [errno] is not cleared: it holds the
    code of the last failed [link], if one failed. *)
Theorem first_acquire_on_empty_state_file
  (is_write : bool) (narwhal : Narwhal) (r : Round) (env : list Round) (w : World)
  (fails : list Spin) (s : Spin) (rest : list Spin) :
  state_file w = EmptyString ->
  spins r = fails ++ s :: rest ->
  Forall (spins_on (clock_deadline r + timeout_sec narwhal)) fails ->
  link_result s = None ->
  unlink_lockfile r = None -> unlink_private r = None ->
  exists w',
    narwhal_lock is_write narwhal (r :: env) w = Done 0 w' /\
    state_file w'
    = dump_text [mkClientState is_write true (clock_request r) (my_host_name w) (my_pid w)] /\
    syscalls w'
    = syscalls w
      ++ EvCreat (private_file narwhal w)
         :: repeat (EvLink (private_file narwhal w) (lock_file narwhal)) (S (length fails))
      ++ [EvWrite (format_path [lockdir narwhal; "/state"]) (state_file w');
          EvUnlink (lock_file narwhal); EvUnlink (private_file narwhal w)] /\
    errno w' = errno_after_links fails (errno w).
Proof.
  intros Hfile Hsp Hfails Hs Hu1 Hu2.
  destruct (exclusive_lock_contended narwhal r w fails s rest Hsp Hfails Hs)
    as (w1 & Hlock & He1 & Hsc1 & Hlp1 & Hpp1).
  destruct (unlinks_succeed r Hu1 Hu2) as [Hok Hok0].
  destruct (acquire_pass_new_entry is_write narwhal r env [] w w1)
    as (w2 & g & w3 & Hload & _ & Hgn & Hrun & Hsf & Hsw & Her & Hsys);
    try assumption; [constructor | intros c []|].
  rewrite Hok in Hrun. rewrite Hok0 in Her.
  assert (Her' : errno w3 = errno w1).
  { rewrite Her. destruct (errno w1 =? 0) eqn:E; [apply Z.eqb_eq in E; congruence | reflexivity]. }
  assert (Hfile1 : state_file w1 = dump_text []).
  { pose proof (exclusive_lock_critical_data _ _ _ _ _ Hlock) as Hcrit.
    unfold critical_data in Hcrit. cbn [dump_text]. congruence. }
  destruct (load_client_states_granted narwhal (clock_parse r) [] w1 0 w2
              (List.Forall_nil _) Hfile1 Hload) as (Hnone & _).
  rewrite (grant_now_none is_write w2 (Hnone eq_refl)) in Hgn. injection Hgn as <-.
  exists w3. cbn [List.filter app] in Hsf.
  split; [exact Hrun|]. split; [exact Hsf|]. split; [|congruence].
  rewrite Hsys, Hsc1, Hlp1, Hpp1, <- !app_assoc. reflexivity.
Qed.

(** X4: a process without an entry asks for the write lock.  Its line is
    appended after the kept ones and the file is written; the request is
    granted on this pass exactly when no line of the file it loaded is
    granted, the stale lines counted; otherwise the call goes on to its
    next pass. *)
Theorem write_request_is_granted_iff_no_line_is_granted
  (narwhal : Narwhal) (r : Round) (env : list Round)
  (cs : list ClientState) (w w1 : World) :
  Forall wf_entry cs -> state_file w = dump_text cs ->
  exclusive_lock narwhal r w = Done 0 w1 ->
  unlink_lockfile r = None -> unlink_private r = None ->
  (forall c, In c cs -> clock_parse r - timeout_sec narwhal <= time c ->
             ~ (host_name c = my_host_name w /\ pid c = my_pid w)) ->
  exists w',
    narwhal_write_lock narwhal (r :: env) w
    = (if existsb is_granted cs then narwhal_write_lock narwhal env w' else Done 0 w') /\
    state_file w'
    = dump_text (List.filter (fun c => clock_parse r - timeout_sec narwhal <=? time c) cs
                 ++ [mkClientState true (negb (existsb is_granted cs)) (clock_request r)
                       (my_host_name w) (my_pid w)]) /\
    state_writes w' = state_writes w ++ [state_file w'].
Proof.
  intros Hwf Hfile Hlock Hu1 Hu2 Hnone.
  destruct (unlinks_succeed r Hu1 Hu2) as [Hok Hok0].
  destruct (acquire_pass_new_entry true narwhal r env cs w w1)
    as (w2 & g & w3 & Hload & _ & Hgn & Hrun & Hsf & Hsw & Her & Hsys); try assumption;
    [|rewrite Hok in Hrun].
  { intros c Hin. apply filter_In in Hin as [Hin Hf]. unfold fresh in Hf.
    apply Z.leb_le in Hf. destruct (is_mine (my_host_name w) (my_pid w) c) eqn:Hm;
      [|reflexivity].
    apply is_mine_true in Hm. exfalso. exact (Hnone c Hin Hf Hm). }
  assert (Hfile1 : state_file w1 = dump_text cs).
  { pose proof (exclusive_lock_critical_data _ _ _ _ _ Hlock) as Hcrit.
    unfold critical_data in Hcrit. congruence. }
  destruct (load_client_states_granted narwhal (clock_parse r) cs w1 0 w2
              Hwf Hfile1 Hload) as (Hno & Hyes & _).
  exists w3. unfold narwhal_write_lock.
  destruct (existsb is_granted cs) eqn:Hex.
  - rewrite (grant_now_write_some w2 (Hyes eq_refl)) in Hgn. injection Hgn as <-.
    auto.
  - rewrite (grant_now_none true w2 (Hno eq_refl)) in Hgn. injection Hgn as <-.
    auto.
Qed.

(** X5: a process without an entry asks for the read lock, and no line of
    the file is stale.  Its line is appended and the file is written; the
    request is granted on this pass exactly when no line is granted or the
    last granted line is a read line -- lines of waiting writers do not
    count. *)
Theorem read_request_follows_the_last_granted_line
  (narwhal : Narwhal) (r : Round) (env : list Round)
  (cs : list ClientState) (w w1 : World) :
  Forall wf_entry cs -> state_file w = dump_text cs ->
  Forall (fun c => clock_parse r - timeout_sec narwhal <= time c) cs ->
  exclusive_lock narwhal r w = Done 0 w1 ->
  unlink_lockfile r = None -> unlink_private r = None ->
  (forall c, In c cs -> ~ (host_name c = my_host_name w /\ pid c = my_pid w)) ->
  exists w',
    narwhal_read_lock narwhal (r :: env) w
    = (if match last_granted_entry cs with
          | Some c => negb (is_write_lock c)
          | None => true
          end
       then Done 0 w' else narwhal_read_lock narwhal env w') /\
    state_file w'
    = dump_text (cs ++ [mkClientState false
                          match last_granted_entry cs with
                          | Some c => negb (is_write_lock c)
                          | None => true
                          end
                          (clock_request r) (my_host_name w) (my_pid w)]) /\
    state_writes w' = state_writes w ++ [state_file w'].
Proof.
  intros Hwf Hfile Hfresh Hlock Hu1 Hu2 Hnone.
  destruct (all_fresh_filter _ _ Hfresh) as [Hall Hfilter].
  destruct (unlinks_succeed r Hu1 Hu2) as [Hok Hok0].
  destruct (acquire_pass_new_entry false narwhal r env cs w w1)
    as (w2 & g & w3 & Hload & Htake & Hgn & Hrun & Hsf & Hsw & Her & Hsys); try assumption;
    [|rewrite Hok in Hrun].
  { intros c Hin. apply filter_In in Hin as [Hin _].
    destruct (is_mine (my_host_name w) (my_pid w) c) eqn:Hm; [|reflexivity].
    apply is_mine_true in Hm. exfalso. exact (Hnone c Hin Hm). }
  assert (Hfile1 : state_file w1 = dump_text cs).
  { pose proof (exclusive_lock_critical_data _ _ _ _ _ Hlock) as Hcrit.
    unfold critical_data in Hcrit. congruence. }
  destruct (load_client_states_granted narwhal (clock_parse r) cs w1 0 w2
              Hwf Hfile1 Hload) as (_ & _ & Hlast).
  specialize (Hlast Hall). rewrite Hfilter in Htake, Hsf.
  pose proof (last_granted_lookup cs) as Hlk.
  exists w3. unfold narwhal_read_lock.
  destruct (last_granted cs) as [j|].
  - destruct Hlk as (c & Hc & ->).
    rewrite <- Htake in Hc. apply lookup_take_Some in Hc as [Hc _].
    rewrite (grant_now_read_some w2 j c Hlast Hc) in Hgn. injection Hgn as <-. auto.
  - rewrite Hlk. rewrite (grant_now_none false w2 Hlast) in Hgn.
    injection Hgn as <-. auto.
Qed.


(** ** Release *)

(** What [memmove] and the unchanged [n_client_states] leave in the first
    [n] slots when the entry at [i] is removed. *)
Lemma slots_after_memmove (slots : list ClientState) (n i : nat) (x : ClientState) :
  (i < n)%nat -> slots !! (n - 1)%nat = Some x ->
  take n (memmove_slots i (S i) (n - i - 1) slots)
  = take i (take n slots) ++ drop (S i) (take n slots) ++ [x].
Proof.
  intros Hi Hx. unfold memmove_slots.
  assert (Hlen : (n - 1 < length slots)%nat) by (apply lookup_lt_is_Some; eauto).
  replace (i + (n - i - 1))%nat with (n - 1)%nat by lia.
  rewrite (drop_S slots x (n - 1)) by exact Hx.
  rewrite take_take. replace (i `min` n)%nat with i by lia.
  rewrite take_drop_commute. replace (S i + (n - i - 1))%nat with n by lia.
  change (x :: drop (S (n - 1)) slots) with ([x] ++ drop (S (n - 1)) slots).
  rewrite !app_assoc. apply take_app_length'.
  rewrite !length_app, length_take, length_drop, length_take. cbn [length]. lia.
Qed.

Lemma remove_lock_not_found (w : World) :
  find_mine (my_host_name w) (my_pid w) (take (n_client_states w) (client_states w)) 0 = None ->
  remove_lock w = Done (-1) (with_errno ENOTSUP w).
Proof. intros H. unfold remove_lock, bind, gets, id. now rewrite H. Qed.

Lemma remove_lock_pending (w : World) (i : nat) (c : ClientState) :
  find_mine (my_host_name w) (my_pid w) (take (n_client_states w) (client_states w)) 0 = Some i ->
  client_states w !! i = Some c -> is_granted c = false ->
  remove_lock w = Crashed AssertionFailed.
Proof.
  intros H Hc Hg. unfold remove_lock, bind, gets, id, load_slot. now rewrite H, Hc, Hg.
Qed.

Lemma remove_lock_granted (w : World) (i : nat) (c x : ClientState) :
  find_mine (my_host_name w) (my_pid w) (take (n_client_states w) (client_states w)) 0 = Some i ->
  client_states w !! i = Some c -> is_granted c = true ->
  (i < n_client_states w)%nat ->
  client_states w !! (n_client_states w - 1)%nat = Some x ->
  exists w',
    remove_lock w = Done 0 w' /\
    state_file w'
    = dump_text (take i (take (n_client_states w) (client_states w))
                 ++ drop (S i) (take (n_client_states w) (client_states w)) ++ [x]) /\
    syscalls w' = syscalls w ++ [EvWrite (state_path w) (state_file w')] /\
    errno w' = errno w /\ n_client_states w' = n_client_states w.
Proof.
  intros H Hc Hg Hi Hx.
  unfold remove_lock, bind, gets, id, load_slot. rewrite H, Hc, Hg.
  unfold modify, dump_client_states, bind, gets, ret, id.
  destruct w as [mh mp sp lp pp cs n gs ch st er sf sc].
  cbn [client_states n_client_states client_states_changed state_file errno syscalls
       my_host_name my_pid state_path lockfile_path private_path
       with_client_states with_state_file with_event Z.ltb Z.compare] in *.
  eexists. split; [reflexivity|].
  cbn [client_states n_client_states client_states_changed state_file errno syscalls
       my_host_name my_pid state_path lockfile_path private_path
       with_client_states with_state_file with_event].
  rewrite (slots_after_memmove cs n i x Hi Hx). repeat split; reflexivity.
Qed.

Lemma narwhal_unlock_after_load (narwhal : Narwhal) (r : Round) (w w1 w2 : World) :
  exclusive_lock narwhal r w = Done 0 w1 ->
  load_client_states narwhal (clock_parse r) w1 = Done 0 w2 ->
  narwhal_unlock narwhal r w
  = match remove_lock w2 with
    | Done result w3 =>
        Done (if (unlink_failed r || (result <? 0))%bool then -1 else 0)
          (with_errno (if errno w3 =? 0 then unlink_errno r else errno w3)
             (with_event (EvUnlink (private_path w3))
                (with_event (EvUnlink (lockfile_path w3)) w3)))
    | Crashed c => Crashed c
    end.
Proof.
  intros Hlock Hload. unfold narwhal_unlock.
  unfold bind at 1. rewrite Hlock. cbn [Z.ltb Z.compare].
  unfold bind at 1. rewrite Hload. cbn [Z.ltb Z.compare].
  unfold bind at 1. destruct (remove_lock w2) as [result w3|]; [|reflexivity].
  unfold bind. rewrite exclusive_unlock_run.
  destruct (unlink_failed r), (result <? 0); reflexivity.
Qed.

Lemma load_after_lock (narwhal : Narwhal) (r : Round) (cs : list ClientState) (w w1 : World) :
  Forall wf_entry cs -> state_file w = dump_text cs ->
  exclusive_lock narwhal r w = Done 0 w1 ->
  exists w2,
    load_client_states narwhal (clock_parse r) w1 = Done 0 w2 /\
    take (n_client_states w2) (client_states w2)
    = List.filter (fresh (clock_parse r - timeout_sec narwhal)) cs /\
    n_client_states w2
    = length (List.filter (fresh (clock_parse r - timeout_sec narwhal)) cs) /\
    granted_in_bounds w2 /\
    my_host_name w2 = my_host_name w /\ my_pid w2 = my_pid w /\
    state_file w2 = state_file w /\ state_writes w2 = state_writes w.
Proof.
  intros Hwf Hfile Hlock.
  pose proof (exclusive_lock_critical_data _ _ _ _ _ Hlock) as Hcrit.
  unfold critical_data in Hcrit.
  injection Hcrit as F1 F2 F3 F4 F5 F6 F7 F8 F9 F10.
  assert (Hfile1 : state_file w1 = dump_text cs) by congruence.
  destruct (load_client_states_dump narwhal (clock_parse r) cs w1 Hwf Hfile1)
    as (w2 & Hload & Hn & Htake & _ & Hlt & Hg & Hsur & _).
  unfold surroundings in Hsur. injection Hsur as E1 E2 E3 E4 E5 E6 E7.
  exists w2. unfold state_writes in *. rewrite E7.
  repeat split; try assumption; congruence.
Qed.

(** X6: a release by a process that has no entry among the kept ones fails
    with ENOTSUP; the state file is not written, so stale lines the load
    has dropped stay in the file. *)
Theorem release_without_entry_is_unsupported
  (narwhal : Narwhal) (r : Round) (cs : list ClientState) (w w1 : World) :
  Forall wf_entry cs -> state_file w = dump_text cs ->
  exclusive_lock narwhal r w = Done 0 w1 ->
  (forall c, In c cs -> clock_parse r - timeout_sec narwhal <= time c ->
             ~ (host_name c = my_host_name w /\ pid c = my_pid w)) ->
  exists w',
    narwhal_unlock narwhal r w = Done (-1) w' /\
    errno w' = ENOTSUP /\
    state_file w' = state_file w /\
    state_writes w' = state_writes w.
Proof.
  intros Hwf Hfile Hlock Hnone.
  destruct (load_after_lock narwhal r cs w w1 Hwf Hfile Hlock)
    as (w2 & Hload & Htake & _ & _ & Hh & Hp & Hsf & Hsw).
  rewrite (narwhal_unlock_after_load _ _ _ _ _ Hlock Hload).
  rewrite remove_lock_not_found.
  2:{ apply find_mine_absent. intros c Hin. rewrite Htake in Hin.
      apply filter_In in Hin as [Hin Hf]. unfold fresh in Hf. apply Z.leb_le in Hf.
      destruct (is_mine (my_host_name w2) (my_pid w2) c) eqn:Hm; [|reflexivity].
      apply is_mine_true in Hm. rewrite Hh, Hp in Hm. exfalso. exact (Hnone c Hin Hf Hm). }
  rewrite orb_true_r. eexists. split; [reflexivity|].
  unfold state_writes in *.
  cbn [errno state_file syscalls with_errno with_event Z.eqb ENOTSUP].
  split; [reflexivity|]. split; [exact Hsf|].
  rewrite !flat_map_app. cbn [flat_map app]. rewrite !app_nil_r. exact Hsw.
Qed.

(** X7: a release by the process whose entry is kept and granted writes
    as many lines as the load kept: the lines before the caller's, the
    lines after it, and the last kept line once more (the caller's own when
    it is the last).  The result is 0 unless an [unlink] fails. *)
Theorem release_writes_the_last_line_twice
  (narwhal : Narwhal) (r : Round) (cs : list ClientState) (c : ClientState) (w w1 : World) :
  Forall wf_entry cs -> state_file w = dump_text cs ->
  exclusive_lock narwhal r w = Done 0 w1 ->
  List.NoDup (map key (List.filter (fun e => clock_parse r - timeout_sec narwhal <=? time e) cs)) ->
  In c (List.filter (fun e => clock_parse r - timeout_sec narwhal <=? time e) cs) ->
  host_name c = my_host_name w -> pid c = my_pid w -> is_granted c = true ->
  exists (i : nat) (x : ClientState) (w' : World),
    List.filter (fun e => clock_parse r - timeout_sec narwhal <=? time e) cs !! i = Some c /\
    last (List.filter (fun e => clock_parse r - timeout_sec narwhal <=? time e) cs) = Some x /\
    narwhal_unlock narwhal r w
    = Done (match unlink_lockfile r, unlink_private r with
            | None, None => 0
            | _, _ => -1
            end) w' /\
    state_file w'
    = dump_text
        (take i (List.filter (fun e => clock_parse r - timeout_sec narwhal <=? time e) cs)
         ++ drop (S i) (List.filter (fun e => clock_parse r - timeout_sec narwhal <=? time e) cs)
         ++ [x]) /\
    state_writes w' = state_writes w ++ [state_file w'].
Proof.
  intros Hwf Hfile Hlock Hnd Hin Hh Hp Hgr.
  destruct (load_after_lock narwhal r cs w w1 Hwf Hfile Hlock)
    as (w2 & Hload & Htake & Hn & _ & Hh2 & Hp2 & Hsf & Hsw).
  unfold fresh in Htake, Hn.
  set (kept := List.filter (fun e => clock_parse r - timeout_sec narwhal <=? time e) cs) in *.
  assert (Hmine : is_mine (my_host_name w2) (my_pid w2) c = true)
    by (apply is_mine_true; split; congruence).
  destruct (find_mine_unique _ _ _ c Hnd Hin Hmine 0%nat) as (i & Hfind & Hi).
  cbn [Nat.add] in Hfind.
  assert (Hilt : (i < n_client_states w2)%nat).
  { rewrite Hn. apply lookup_lt_is_Some. eauto. }
  assert (Hlast : exists x, last kept = Some x) .
  { rewrite last_lookup. apply lookup_lt_is_Some. rewrite <- Hn. lia. }
  destruct Hlast as [x Hx]. exists i, x.
  pose proof Hx as Hx'. rewrite last_lookup, <- Hn in Hx'.
  replace (Nat.pred (n_client_states w2)) with (n_client_states w2 - 1)%nat in Hx' by lia.
  rewrite <- Htake in Hfind, Hi, Hx'.
  apply lookup_take_Some in Hi as [Hi _]. apply lookup_take_Some in Hx' as [Hx' _].
  destruct (remove_lock_granted w2 i c x Hfind Hi Hgr Hilt Hx')
    as (w3 & Hrem & Hsf3 & Hsc3 & _ & _).
  rewrite (narwhal_unlock_after_load _ _ _ _ _ Hlock Hload), Hrem.
  eexists. split; [rewrite <- Htake; apply lookup_take_Some; split; [exact Hi | exact Hilt]|].
  split; [exact Hx|]. split.
  { unfold unlink_failed. cbn [Z.ltb Z.compare]. rewrite orb_false_r.
    destruct (unlink_lockfile r), (unlink_private r); reflexivity. }
  unfold state_writes in *.
  cbn [state_file syscalls with_errno with_event].
  rewrite Hsc3, Hsf3, Htake. split; [reflexivity|].
  rewrite !flat_map_app. cbn [flat_map app]. rewrite !app_nil_r. now rewrite Hsw.
Qed.

(** X8: a release by the process whose kept entry is still pending stops
    at the assertion of [remove_lock]. *)
Theorem release_of_pending_entry_fails_the_assertion
  (narwhal : Narwhal) (r : Round) (cs : list ClientState) (c : ClientState) (w w1 : World) :
  Forall wf_entry cs -> state_file w = dump_text cs ->
  exclusive_lock narwhal r w = Done 0 w1 ->
  List.NoDup (map key (List.filter (fun e => clock_parse r - timeout_sec narwhal <=? time e) cs)) ->
  In c (List.filter (fun e => clock_parse r - timeout_sec narwhal <=? time e) cs) ->
  host_name c = my_host_name w -> pid c = my_pid w -> is_granted c = false ->
  narwhal_unlock narwhal r w = Crashed AssertionFailed.
Proof.
  intros Hwf Hfile Hlock Hnd Hin Hh Hp Hgr.
  destruct (load_after_lock narwhal r cs w w1 Hwf Hfile Hlock)
    as (w2 & Hload & Htake & Hn & _ & Hh2 & Hp2 & Hsf & Hsw).
  unfold fresh in Htake.
  assert (Hmine : is_mine (my_host_name w2) (my_pid w2) c = true)
    by (apply is_mine_true; split; congruence).
  destruct (find_mine_unique _ _ _ c Hnd Hin Hmine 0%nat) as (i & Hfind & Hi).
  cbn [Nat.add] in Hfind. rewrite <- Htake in Hfind, Hi.
  apply lookup_take_Some in Hi as [Hi _].
  rewrite (narwhal_unlock_after_load _ _ _ _ _ Hlock Hload).
  now rewrite (remove_lock_pending w2 i c Hfind Hi Hgr).
Qed.
(** X9: the mutex is obtained by the first [link] that succeeds, as long
    as the clock read after each failed attempt has not passed
    [time(NULL) + timeout_sec]: one [creat] of the private file, one [link]
    per attempt, nothing else; the state file and the parsed state are not
    touched; [errno] is left at the code of the last failed [link]. *)
Theorem exclusive_lock_succeeds_after_failed_links
  (narwhal : Narwhal) (r : Round) (w : World) (fails : list Spin) (s : Spin) (rest : list Spin) :
  spins r = fails ++ s :: rest ->
  Forall (spins_on (clock_deadline r + timeout_sec narwhal)) fails ->
  link_result s = None ->
  exists w',
    exclusive_lock narwhal r w = Done 0 w' /\
    errno w' = errno_after_links fails (errno w) /\
    syscalls w'
    = syscalls w ++ EvCreat (private_file narwhal w)
        :: repeat (EvLink (private_file narwhal w) (lock_file narwhal)) (S (length fails)) /\
    critical_data w' = critical_data w.
Proof.
  intros Hsp Hfails Hs.
  destruct (exclusive_lock_contended narwhal r w fails s rest Hsp Hfails Hs)
    as (w' & Hrun & He & Hsc & _).
  exists w'. repeat split; try assumption.
  exact (exclusive_lock_critical_data _ _ _ _ _ Hrun).
Qed.

(** X10: when a [link] fails and the clock read after the sleep has passed
    [time(NULL) + timeout_sec], an acquire and a release return -1 with
    ETIMEDOUT.  The state file is neither read nor written, and no [unlink]
    is made: the private file stays in the lock directory. *)
Theorem mutex_timeout_ends_the_call
  (is_write : bool) (narwhal : Narwhal) (r : Round) (env : list Round) (w : World)
  (fails : list Spin) (s : Spin) (rest : list Spin) :
  spins r = fails ++ s :: rest ->
  Forall (spins_on (clock_deadline r + timeout_sec narwhal)) fails ->
  link_result s <> None -> clock_deadline r + timeout_sec narwhal < clock_after_sleep s ->
  exists w',
    narwhal_lock is_write narwhal (r :: env) w = Done (-1) w' /\
    narwhal_unlock narwhal r w = Done (-1) w' /\
    errno w' = ETIMEDOUT /\
    syscalls w'
    = syscalls w ++ EvCreat (private_file narwhal w)
        :: repeat (EvLink (private_file narwhal w) (lock_file narwhal)) (S (length fails)) /\
    critical_data w' = critical_data w.
Proof.
  intros Hsp Hfails Hs Hlate.
  destruct (exclusive_lock_timed_out narwhal r w fails s rest Hsp Hfails Hs Hlate)
    as (w' & Hrun & He & Hsc).
  exists w'. cbn [narwhal_lock]. unfold narwhal_unlock, bind. rewrite Hrun.
  repeat split; try assumption.
  exact (exclusive_lock_critical_data _ _ _ _ _ Hrun).
Qed.

(** X11: when an [unlink] fails after the request was written, the acquire
    returns -1 although the line of the caller is in the state file --
    granted, when no line of the loaded file was granted. *)
Theorem failed_unlink_hides_a_written_request
  (is_write : bool) (narwhal : Narwhal) (r : Round) (env : list Round)
  (cs : list ClientState) (w w1 : World) :
  Forall wf_entry cs -> state_file w = dump_text cs ->
  exclusive_lock narwhal r w = Done 0 w1 ->
  unlink_lockfile r <> None \/ unlink_private r <> None ->
  (forall c, In c cs -> clock_parse r - timeout_sec narwhal <= time c ->
             ~ (host_name c = my_host_name w /\ pid c = my_pid w)) ->
  exists (g : bool) (w' : World),
    narwhal_lock is_write narwhal (r :: env) w = Done (-1) w' /\
    state_file w'
    = dump_text (List.filter (fun c => clock_parse r - timeout_sec narwhal <=? time c) cs
                 ++ [mkClientState is_write g (clock_request r)
                       (my_host_name w) (my_pid w)]) /\
    state_writes w' = state_writes w ++ [state_file w'] /\
    (existsb is_granted cs = false -> g = true).
Proof.
  intros Hwf Hfile Hlock Hfail Hnone.
  destruct (acquire_pass_new_entry is_write narwhal r env cs w w1)
    as (w2 & g & w3 & Hload & _ & Hgn & Hrun & Hsf & Hsw & Her & Hsys); try assumption.
  { intros c Hin. apply filter_In in Hin as [Hin Hf]. unfold fresh in Hf.
    apply Z.leb_le in Hf. destruct (is_mine (my_host_name w) (my_pid w) c) eqn:Hm;
      [|reflexivity].
    apply is_mine_true in Hm. exfalso. exact (Hnone c Hin Hf Hm). }
  assert (Hfailed : unlink_failed r = true).
  { unfold unlink_failed.
    destruct (unlink_lockfile r), (unlink_private r); try reflexivity.
    destruct Hfail as [H | H]; contradiction. }
  rewrite Hfailed in Hrun.
  assert (Hfile1 : state_file w1 = dump_text cs).
  { pose proof (exclusive_lock_critical_data _ _ _ _ _ Hlock) as Hcrit.
    unfold critical_data in Hcrit. congruence. }
  destruct (load_client_states_granted narwhal (clock_parse r) cs w1 0 w2
              Hwf Hfile1 Hload) as (Hno & _).
  exists g, w3. repeat split; try assumption.
  intros Hex. rewrite (grant_now_none is_write w2 (Hno Hex)) in Hgn. congruence.
Qed.

(** ** Identity *)

Lemma patch_host_name_no_space (s : string) : no_space (patch_host_name s) = true.
Proof.
  induction s as [|c s IH]; [reflexivity|].
  cbn [patch_host_name no_space]. rewrite IH, andb_true_r.
  destruct (is_SP c) eqn:E; [reflexivity | now rewrite E].
Qed.

Lemma patch_host_name_clean (s : string) :
  no_break s = true -> clean (patch_host_name s) = true.
Proof.
  induction s as [|c s IH]; [reflexivity|].
  cbn [patch_host_name no_break clean]. intros H.
  apply andb_true_iff in H as [Hc Hs]. rewrite (IH Hs), andb_true_r.
  apply negb_true_iff, orb_false_iff in Hc as [H0 H1].
  unfold field_char. destruct (is_SP c) eqn:E; [reflexivity|].
  now rewrite H0, H1, E.
Qed.

(** X1: [patch_host_name] keeps the length, leaves no space, changes
    nothing in a name without spaces, and applying it twice is applying it
    once. *)
Theorem patch_host_name_replaces_exactly_the_spaces (s : string) :
  String.length (patch_host_name s) = String.length s /\
  no_space (patch_host_name s) = true /\
  (no_space s = true -> patch_host_name s = s) /\
  patch_host_name (patch_host_name s) = patch_host_name s.
Proof.
  assert (Hid : forall t, no_space t = true -> patch_host_name t = t).
  { induction t as [|c t IH]; [reflexivity|].
    cbn [no_space patch_host_name]. intros H. apply andb_true_iff in H as [Hc Ht].
    apply negb_true_iff in Hc. now rewrite Hc, (IH Ht). }
  split; [|split; [apply patch_host_name_no_space | split; [apply Hid|]]].
  - induction s as [|c s IH]; [reflexivity|]. cbn [patch_host_name String.length].
    now rewrite IH.
  - apply Hid, patch_host_name_no_space.
Qed.

(** X2: a host name that is not empty and holds no NUL and no line break
    is stored by [narwhal_hostname] as a field of the state file, whatever
    spaces it has; the pid and the lock directory are left alone. *)
Theorem narwhal_hostname_stores_a_field (hostname : string) (w : World) :
  hostname <> EmptyString -> no_break hostname = true ->
  exists w',
    narwhal_hostname hostname w = Done tt w' /\
    my_host_name w' = patch_host_name hostname /\
    is_field (my_host_name w') /\
    my_pid w' = my_pid w /\ state_file w' = state_file w /\ syscalls w' = syscalls w.
Proof.
  intros Hne Hnb. destruct hostname as [|c s]; [contradiction|].
  eexists. split; [reflexivity|]. cbn [my_host_name my_pid state_file syscalls with_my_host_name].
  repeat split.
  - cbn [patch_host_name]. discriminate.
  - apply patch_host_name_clean. exact Hnb.
Qed.

(** ** Letters the parser does not know *)

Lemma parse_field_unknown_mode ff p next fi w :
  (fi mod 5 = 2)%nat -> p <> "R" -> p <> "W" ->
  parse_field ff p next fi w = Crashed AssertionFailed.
Proof.
  intros Hfi HR HW. unfold parse_field. rewrite Hfi.
  destruct p as [|c [|c' p']]; try reflexivity.
  destruct (Ascii.eqb_spec c "R") as [-> | _]; [contradiction|].
  destruct (Ascii.eqb_spec c "W") as [-> | _]; [contradiction|]. reflexivity.
Qed.

Lemma parse_field_unknown_status ff p next fi w :
  (fi mod 5 = 3)%nat -> p <> "P" -> p <> "G" ->
  parse_field ff p next fi w = Crashed AssertionFailed.
Proof.
  intros Hfi HP HG. unfold parse_field. rewrite Hfi.
  destruct p as [|c [|c' p']]; try reflexivity.
  destruct (Ascii.eqb_spec c "P") as [-> | _]; [contradiction|].
  destruct (Ascii.eqb_spec c "G") as [-> | _]; [contradiction|]. reflexivity.
Qed.

Lemma separator_not_NUL (sep : ascii) :
  (is_LF sep || is_SP sep)%bool = true -> is_NUL sep = false.
Proof.
  intros H. apply orb_true_iff in H as [H | H]; apply Ascii.eqb_eq in H; subst; reflexivity.
Qed.

(** X12: a state file whose third field is not the letter R or W, or whose
    third field is one of them and whose fourth is not P or G, stops the
    load at an assertion of [parse_client_states], whatever follows. *)
Theorem load_stops_at_an_unknown_letter
  (narwhal : Narwhal) (now : Z) (w : World) (h p m st : string) (sep : ascii) (rest : string) :
  is_field h -> is_field p -> is_field m -> is_field st ->
  (is_LF sep || is_SP sep)%bool = true ->
  state_file w = h +:+ String SP (p +:+ String SP (m +:+ String SP (st +:+ String sep rest))) ->
  (m <> "R" /\ m <> "W") \/ ((m = "R" \/ m = "W") /\ st <> "P" /\ st <> "G") ->
  load_client_states narwhal now w = Crashed AssertionFailed.
Proof.
  intros Hh Hp Hm Hst Hsep Hfile Hbad.
  pose proof (separator_not_NUL sep Hsep) as Hnul.
  unfold load_client_states, load_state_text, parse_client_states.
  unfold bind, gets, modify, ret. cbn [Z.ltb Z.compare].
  change (state_file (with_state_path ?x ?y)) with (state_file y).
  change (state_text (with_state_text ?t ?x)) with t.
  rewrite Hfile. fold NULNUL.
  rewrite !append_assoc, !append_cons, !append_assoc, !append_cons.
  rewrite !append_assoc, !append_cons, !append_assoc, !append_cons.
  rewrite (fields_field SP h) by (assumption || reflexivity).
  rewrite (fields_field SP p) by (assumption || reflexivity).
  rewrite (fields_field SP m) by (assumption || reflexivity).
  rewrite (fields_field sep st) by assumption.
  match goal with |- context [parse_fields ?ff _ 0%nat 0%nat ?wa] =>
    set (ff0 := ff); set (w0 := wa)
  end.
  assert (Hlt : (0 < length (client_states w0))%nat).
  { subst w0. autorewrite with world. rewrite length_resize. lia. }
  destruct (lookup_lt_is_Some_2 _ _ Hlt) as [c0 Hc0].
  assert (Hins : forall x, <[0%nat := x]> (client_states w0) !! 0%nat = Some x)
    by (intros x; apply list_lookup_insert_eq; exact Hlt).
  cbn [parse_fields].
  unfold bind at 1. rewrite (parse_field_host _ _ _ 0%nat _ c0 eq_refl Hc0).
  unfold bind at 1. erewrite (parse_field_pid _ _ _ 1%nat _ _ eq_refl)
    by (autorewrite with world; apply Hins).
  autorewrite with world. rewrite list_insert_insert_eq.
  unfold bind at 1.
  destruct Hbad as [[HR HW] | [Hmode [HP HG]]].
  - now rewrite (parse_field_unknown_mode _ _ _ 2%nat _ eq_refl HR HW).
  - assert (Hrun : exists b, forall w1 c1, client_states w1 !! 0%nat = Some c1 ->
              parse_field ff0 m 0 2 w1
              = Done 0%nat (with_client_states
                              (<[0%nat := set_is_write_lock b c1]> (client_states w1)) w1)).
    { destruct Hmode as [-> | ->]; [exists false | exists true];
        intros w1 c1 H1; unfold parse_field; cbn; unfold bind;
        now rewrite (store_slot_run _ _ _ _ H1). }
    destruct Hrun as [b Hrun].
    erewrite Hrun by (autorewrite with world; apply Hins).
    autorewrite with world. rewrite list_insert_insert_eq.
    unfold bind at 1.
    now rewrite (parse_field_unknown_status _ _ _ 3%nat _ eq_refl HP HG).
Qed.

(** ** One entry per client *)

Lemma find_mine_none host p cs :
  forall i0, find_mine host p cs i0 = None ->
  forall c, In c cs -> is_mine host p c = false.
Proof.
  induction cs as [|c cs IH]; intros i0 H c' Hin; [destruct Hin|].
  cbn [find_mine] in H. destruct (is_mine host p c) eqn:Hm; [discriminate|].
  destruct Hin as [<- | Hin]; [exact Hm | eauto].
Qed.

Lemma map_key_insert (l : list ClientState) (i : nat) (c c' : ClientState) :
  l !! i = Some c -> key c' = key c -> map key (<[i := c']> l) = map key l.
Proof.
  revert i. induction l as [|x l IH]; intros i Hl Hk; [reflexivity|].
  destruct i as [|i]; cbn in *.
  - injection Hl as ->. now rewrite Hk.
  - f_equal. now apply IH.
Qed.

Lemma grant_now_cases (is_write : bool) (w : World) :
  grant_now is_write w = Crashed OutOfBounds \/ exists g, grant_now is_write w = Done g w.
Proof.
  unfold grant_now, bind, gets, ret, load_slot.
  destruct (granted_state w) as [i|]; [|eauto].
  destruct is_write; [eauto|].
  destruct (client_states w !! i); eauto.
Qed.

Lemma request_lock_own_entry_slots
  (is_write : bool) (now : Z) (w : World) (i : nat) (c : ClientState) (r : Z) (w' : World) :
  find_mine (my_host_name w) (my_pid w) (take (n_client_states w) (client_states w)) 0 = Some i ->
  client_states w !! i = Some c ->
  request_lock is_write now w = Done r w' ->
  n_client_states w' = n_client_states w /\
  exists c', key c' = key c /\ client_states w' = <[i := c']> (client_states w).
Proof.
  intros Hfind Hc. assert (Hlen : (i < length (client_states w))%nat)
    by (apply lookup_lt_is_Some; eauto).
  unfold request_lock, bind.
  destruct (grant_now_cases is_write w) as [-> | [g ->]]; [discriminate|].
  unfold gets at 1, id. rewrite Hfind. unfold load_slot. rewrite Hc.
  destruct (is_granted c || negb (Bool.eqb (is_write_lock c) is_write))%bool.
  - unfold modify, ret. intros H. injection H as _ <-. split; [reflexivity|].
    exists c. split; [reflexivity|]. cbn [client_states with_errno].
    now rewrite list_insert_id.
  - unfold dump_client_states.
    unfold when, store_slot, modify, gets, ret, bind, id.
    destruct w as [mh mp sp lp pp cs n gs ch st er sf sc].
    destruct c as [m gr t h p].
    cbn [client_states n_client_states is_granted is_write_lock time host_name pid] in *.
    destruct g; destruct (t =? now); cbn [negb].
    all: repeat first
      [ rewrite Hc
      | rewrite list_lookup_insert_eq by assumption
      | rewrite list_insert_insert_eq
      | progress cbn [client_states with_client_states with_client_states_changed
          set_is_granted set_time is_write_lock is_granted time host_name pid
          my_host_name my_pid state_path lockfile_path private_path n_client_states
          granted_state client_states_changed state_text errno state_file syscalls
          with_state_file with_event Z.ltb Z.compare orb] ].
    all: try (destruct ch).
    all: cbn [client_states with_client_states with_client_states_changed
          my_host_name my_pid state_path lockfile_path private_path n_client_states
          granted_state client_states_changed state_text errno state_file syscalls
          with_state_file with_event Z.ltb Z.compare orb].
    all: intros H; injection H as _ <-.
    all: cbn [client_states n_client_states]; split; [reflexivity|].
    all: unfold set_is_granted, set_time;
         cbn [is_write_lock is_granted time host_name pid].
    all: try (eexists; split; [|reflexivity]; reflexivity).
    all: exists (mkClientState m gr t h p); split; [reflexivity|];
         now rewrite list_insert_id.
Qed.

Lemma find_mine_index host p cs :
  forall i0 i, find_mine host p cs i0 = Some i ->
  exists c, cs !! (i - i0)%nat = Some c /\ (i0 <= i)%nat.
Proof.
  induction cs as [|c cs IH]; intros i0 i H; [discriminate|].
  cbn [find_mine] in H. destruct (is_mine host p c).
  - injection H as <-. exists c. rewrite Nat.sub_diag. auto.
  - destruct (IH _ _ H) as (c' & Hl & Hle). exists c'.
    replace (i - i0)%nat with (S (i - S i0)) by lia. split; [exact Hl | lia].
Qed.

Lemma find_mine_unique_index host p cs i :
  find_mine host p cs 0 = Some i -> exists c, cs !! i = Some c /\ In c cs.
Proof.
  intros H. destruct (find_mine_index _ _ _ _ _ H) as (c & Hc & _).
  rewrite Nat.sub_0_r in Hc. exists c. split; [exact Hc|].
  apply list_elem_of_In, list_elem_of_lookup. eauto.
Qed.

Lemma NoDup_app_snoc {A} (l : list A) (x : A) :
  List.NoDup l -> ~ In x l -> List.NoDup (l ++ [x]).
Proof.
  intros Hnd Hx. induction Hnd as [|a l Ha Hnd IH]; cbn.
  - constructor; [intros [] | constructor].
  - constructor.
    + rewrite in_app_iff. intros [H | [H | []]]; [contradiction|].
      apply Hx. left. auto.
    + apply IH. intros H. apply Hx. right. exact H.
Qed.

(** X13: [request_lock] keeps at most one entry per (host, pid): when the
    parsed state has none twice and the call returns, the state it leaves
    -- with the caller's entry refreshed, granted or appended -- has none
    twice either. *)
Theorem request_lock_keeps_one_entry_per_client
  (is_write : bool) (now : Z) (w : World) (r : Z) (w' : World) :
  (n_client_states w < length (client_states w))%nat ->
  List.NoDup (map key (take (n_client_states w) (client_states w))) ->
  request_lock is_write now w = Done r w' ->
  List.NoDup (map key (take (n_client_states w') (client_states w'))).
Proof.
  intros Hlt Hnd Hrun.
  destruct (find_mine (my_host_name w) (my_pid w)
              (take (n_client_states w) (client_states w)) 0) as [i|] eqn:Hfind.
  - destruct (find_mine_unique_index _ _ _ _ Hfind) as (c & Hc & Hin).
    pose proof Hc as Hc'. apply lookup_take_Some in Hc' as [Hslot Hi].
    destruct (request_lock_own_entry_slots _ _ _ _ _ _ _ Hfind Hslot Hrun)
      as (Hn & c' & Hk & Hcs).
    rewrite Hn, Hcs, take_insert_lt by exact Hi.
    now rewrite (map_key_insert _ _ c c' Hc Hk).
  - assert (Hg : exists g, grant_now is_write w = Done g w).
    { destruct (grant_now_cases is_write w) as [Hcr | Hg]; [|exact Hg].
      unfold request_lock, bind in Hrun. rewrite Hcr in Hrun. discriminate. }
    destruct Hg as [g Hg].
    destruct (request_lock_new_entry is_write now w g Hg Hfind Hlt)
      as (w2 & Hreq & _ & _ & _ & _ & _ & Htake).
    rewrite Hreq in Hrun. injection Hrun as _ <-.
    rewrite Htake, map_app. cbn [map].
    apply NoDup_app_snoc; [exact Hnd|].
    intros Hin. apply in_map_iff in Hin as (c & Hk & Hin).
    pose proof (find_mine_none _ _ _ _ Hfind c Hin) as Hm.
    assert (is_mine (my_host_name w) (my_pid w) c = true); [|congruence].
    apply is_mine_true. unfold key in Hk. cbn in Hk. injection Hk as -> ->. auto.
Qed.

(** ** A waiting request that can be granted *)

Lemma request_lock_grants_pending_entry
  (is_write : bool) (now : Z) (w : World) (i : nat) (c : ClientState) :
  grant_now is_write w = Done true w ->
  find_mine (my_host_name w) (my_pid w) (take (n_client_states w) (client_states w)) 0 = Some i ->
  client_states w !! i = Some c -> (i < n_client_states w)%nat ->
  is_granted c = false -> is_write_lock c = is_write ->
  exists w',
    request_lock is_write now w = Done 1 w' /\
    state_file w'
    = dump_text (<[i := mkClientState is_write true now (host_name c) (pid c)]>
                   (take (n_client_states w) (client_states w))) /\
    syscalls w' = syscalls w ++ [EvWrite (state_path w) (state_file w')] /\
    errno w' = errno w /\
    lockfile_path w' = lockfile_path w /\ private_path w' = private_path w.
Proof.
  intros Hgn Hfind Hc Hi Hpend Hmode.
  assert (Hlen : (i < length (client_states w))%nat)
    by (apply lookup_lt_is_Some; eauto).
  unfold request_lock, bind. rewrite Hgn. unfold gets at 1, id.
  rewrite Hfind. unfold load_slot. rewrite Hc, Hpend, Hmode, eqb_reflx.
  cbn [orb negb]. clear Hgn Hfind.
  unfold dump_client_states.
  unfold when, store_slot, modify, gets, ret, bind, id.
  destruct w as [mh mp sp lp pp cs n gs ch st er sf sc].
  destruct c as [m gr t h p].
  cbn [client_states n_client_states is_granted is_write_lock time host_name pid
       state_path lockfile_path private_path errno syscalls] in *.
  subst gr m.
  destruct (t =? now) eqn:Ht; cbn [negb].
  all: repeat first
    [ rewrite Hc
    | rewrite list_lookup_insert_eq by assumption
    | rewrite list_insert_insert_eq
    | progress cbn [client_states with_client_states with_client_states_changed
        set_is_granted set_time is_write_lock is_granted time host_name pid
        my_host_name my_pid state_path lockfile_path private_path n_client_states
        granted_state client_states_changed state_text errno state_file syscalls
        with_state_file with_event Z.ltb Z.compare orb] ].
  all: eexists; split; [reflexivity|].
  all: cbn [client_states with_client_states with_client_states_changed
        my_host_name my_pid state_path lockfile_path private_path n_client_states
        granted_state client_states_changed state_text errno state_file syscalls
        with_state_file with_event].
  all: rewrite take_insert_lt by exact Hi.
  all: try (apply Z.eqb_eq in Ht; subst t).
  all: repeat split; reflexivity.
Qed.

(** X14: a process whose pending entry is kept asks again, in the same
    mode, and no line of the loaded file is granted.  The call returns 0 on
    this pass; the file written holds the kept lines in their order, the
    caller's own now granted and with the current time. *)
Theorem pending_request_is_granted_when_no_line_is_granted
  (is_write : bool) (narwhal : Narwhal) (r : Round) (env : list Round)
  (cs : list ClientState) (c : ClientState) (w w1 : World) :
  Forall wf_entry cs -> state_file w = dump_text cs ->
  exclusive_lock narwhal r w = Done 0 w1 ->
  unlink_lockfile r = None -> unlink_private r = None ->
  List.NoDup (map key (List.filter (fun e => clock_parse r - timeout_sec narwhal <=? time e) cs)) ->
  In c (List.filter (fun e => clock_parse r - timeout_sec narwhal <=? time e) cs) ->
  host_name c = my_host_name w -> pid c = my_pid w ->
  is_write_lock c = is_write ->
  existsb is_granted cs = false ->
  exists (i : nat) (w' : World),
    List.filter (fun e => clock_parse r - timeout_sec narwhal <=? time e) cs !! i = Some c /\
    narwhal_lock is_write narwhal (r :: env) w = Done 0 w' /\
    state_file w'
    = dump_text (<[i := mkClientState is_write true (clock_request r)
                          (my_host_name w) (my_pid w)]>
                   (List.filter (fun e => clock_parse r - timeout_sec narwhal <=? time e) cs)) /\
    state_writes w' = state_writes w ++ [state_file w'].
Proof.
  intros Hwf Hfile Hlock Hu1 Hu2 Hnd Hin Hh Hp Hmode Hnog.
  destruct (unlinks_succeed r Hu1 Hu2) as [Hok Hok0].
  destruct (load_after_lock narwhal r cs w w1 Hwf Hfile Hlock)
    as (w2 & Hload & Htake & Hn & _ & Hh2 & Hp2 & Hsf & Hsw).
  unfold fresh in Htake, Hn.
  set (kept := List.filter (fun e => clock_parse r - timeout_sec narwhal <=? time e) cs) in *.
  assert (Hfile1 : state_file w1 = dump_text cs).
  { pose proof (exclusive_lock_critical_data _ _ _ _ _ Hlock) as Hcrit.
    unfold critical_data in Hcrit. congruence. }
  destruct (load_client_states_granted narwhal (clock_parse r) cs w1 0 w2
              Hwf Hfile1 Hload) as (Hno & _).
  pose proof (grant_now_none is_write w2 (Hno Hnog)) as Hgn.
  assert (Hpend : is_granted c = false).
  { assert (Hcs : In c cs) by (apply filter_In in Hin; tauto).
    clear -Hnog Hcs. induction cs as [|x cs IH]; [destruct Hcs|].
    cbn [existsb] in Hnog. apply orb_false_iff in Hnog as [Hx Hrest].
    destruct Hcs as [<- | Hcs]; auto. }
  assert (Hmine : is_mine (my_host_name w2) (my_pid w2) c = true)
    by (apply is_mine_true; split; congruence).
  destruct (find_mine_unique _ _ _ c Hnd Hin Hmine 0%nat) as (i & Hfind & Hi).
  cbn [Nat.add] in Hfind.
  assert (Hilt : (i < n_client_states w2)%nat).
  { rewrite Hn. apply lookup_lt_is_Some. eauto. }
  pose proof Hi as Hkept. rewrite <- Htake in Hfind, Hi.
  apply lookup_take_Some in Hi as [Hi _].
  destruct (request_lock_grants_pending_entry is_write (clock_request r) w2 i c
              Hgn Hfind Hi Hilt Hpend Hmode)
    as (w3 & Hreq & Hsf3 & Hsc3 & _).
  exists i. eexists. split; [exact Hkept|].
  cbn [narwhal_lock]. unfold bind at 1. rewrite Hlock. cbn [Z.ltb Z.compare].
  unfold bind at 1. rewrite Hload. cbn [Z.ltb Z.compare].
  unfold bind at 1. rewrite Hreq.
  unfold bind at 1. rewrite exclusive_unlock_run, Hok. cbn [Z.ltb Z.compare orb Z.eqb negb].
  unfold ret. split; [reflexivity|].
  unfold state_writes in *.
  cbn [state_file syscalls with_errno with_event].
  rewrite Hsc3, Hsf3, Htake, Hh, Hp. split; [reflexivity|].
  rewrite !flat_map_app. cbn [flat_map app]. rewrite !app_nil_r. now rewrite Hsw.
Qed.

(** ** Witnesses *)

Lemma narwhal_hostname_stores_a_field_witness :
  exists w',
    narwhal_hostname "my host" x_empty_dir = Done tt w' /\
    my_host_name w' = patch_host_name "my host" /\
    is_field (my_host_name w') /\
    my_pid w' = my_pid x_empty_dir /\ state_file w' = state_file x_empty_dir /\
    syscalls w' = syscalls x_empty_dir.
Proof.
  apply (narwhal_hostname_stores_a_field "my host" x_empty_dir);
    [discriminate | reflexivity].
Defined.

Lemma first_acquire_on_empty_state_file_witness :
  exists w',
    narwhal_lock false cfg [x_contended] x_empty_dir = Done 0 w' /\
    state_file w' = dump_text [mkClientState false true 102 "host1" "100"] /\
    syscalls w'
    = syscalls x_empty_dir
      ++ EvCreat (private_file cfg x_empty_dir)
         :: repeat (EvLink (private_file cfg x_empty_dir) (lock_file cfg)) 2
      ++ [EvWrite (format_path [lockdir cfg; "/state"]) (state_file w');
          EvUnlink (lock_file cfg); EvUnlink (private_file cfg x_empty_dir)] /\
    errno w' = 17.
Proof.
  apply (first_acquire_on_empty_state_file false cfg x_contended [] x_empty_dir
           [mkSpin (Some 17) 101] (mkSpin None 102) []).
  - reflexivity.
  - reflexivity.
  - repeat constructor; [discriminate | vm_compute; discriminate].
  - reflexivity.
  - reflexivity.
  - reflexivity.
Defined.

Lemma write_request_is_granted_iff_no_line_is_granted_witness :
  exists w',
    narwhal_write_lock cfg [quiet 100; quiet 100]
      (fresh_process "host1" "200" (dump_text x_stale_reader))
    = (if existsb is_granted x_stale_reader
       then narwhal_write_lock cfg [quiet 100] w' else Done 0 w') /\
    state_file w'
    = dump_text (List.filter (fun c => 100 - 10 <=? time c) x_stale_reader
                 ++ [mkClientState true (negb (existsb is_granted x_stale_reader)) 100
                       "host1" "200"]) /\
    state_writes w'
    = state_writes (fresh_process "host1" "200" (dump_text x_stale_reader))
      ++ [state_file w'].
Proof.
  eapply (write_request_is_granted_iff_no_line_is_granted cfg (quiet 100) [quiet 100]
            x_stale_reader (fresh_process "host1" "200" (dump_text x_stale_reader))).
  - repeat constructor; vm_compute; congruence.
  - reflexivity.
  - vm_compute. reflexivity.
  - reflexivity.
  - reflexivity.
  - intros c [<- | []] _ [_ H]. discriminate H.
Defined.

Lemma read_request_follows_the_last_granted_line_witness :
  exists w',
    narwhal_read_lock cfg [quiet 100]
      (fresh_process "host1" "300" (dump_text x_reader_and_writer))
    = (if match last_granted_entry x_reader_and_writer with
          | Some c => negb (is_write_lock c)
          | None => true
          end
       then Done 0 w' else narwhal_read_lock cfg [] w') /\
    state_file w'
    = dump_text (x_reader_and_writer
                 ++ [mkClientState false
                       match last_granted_entry x_reader_and_writer with
                       | Some c => negb (is_write_lock c)
                       | None => true
                       end 100 "host1" "300"]) /\
    state_writes w'
    = state_writes (fresh_process "host1" "300" (dump_text x_reader_and_writer))
      ++ [state_file w'].
Proof.
  eapply (read_request_follows_the_last_granted_line cfg (quiet 100) []
            x_reader_and_writer
            (fresh_process "host1" "300" (dump_text x_reader_and_writer))).
  - repeat constructor; vm_compute; congruence.
  - reflexivity.
  - repeat constructor; vm_compute; congruence.
  - vm_compute. reflexivity.
  - reflexivity.
  - reflexivity.
  - intros c [<- | [<- | []]] [_ H]; discriminate H.
Defined.

Lemma release_without_entry_is_unsupported_witness :
  exists w',
    narwhal_unlock cfg (quiet 100)
      (fresh_process "host1" "300" (dump_text x_reader_and_writer)) = Done (-1) w' /\
    errno w' = ENOTSUP /\
    state_file w' = dump_text x_reader_and_writer /\
    state_writes w' = [].
Proof.
  eapply (release_without_entry_is_unsupported cfg (quiet 100) x_reader_and_writer
            (fresh_process "host1" "300" (dump_text x_reader_and_writer))).
  - repeat constructor; vm_compute; congruence.
  - reflexivity.
  - vm_compute. reflexivity.
  - intros c [<- | [<- | []]] _ [_ H]; discriminate H.
Defined.

Lemma release_writes_the_last_line_twice_witness :
  exists (i : nat) (x : ClientState) (w' : World),
    List.filter (fun e => 100 - 10 <=? time e) x_reader_and_writer !! i
    = Some (mkClientState false true 100 "host1" "100") /\
    last (List.filter (fun e => 100 - 10 <=? time e) x_reader_and_writer) = Some x /\
    narwhal_unlock cfg (quiet 100)
      (fresh_process "host1" "100" (dump_text x_reader_and_writer)) = Done 0 w' /\
    state_file w'
    = dump_text
        (take i (List.filter (fun e => 100 - 10 <=? time e) x_reader_and_writer)
         ++ drop (S i) (List.filter (fun e => 100 - 10 <=? time e) x_reader_and_writer)
         ++ [x]) /\
    state_writes w'
    = state_writes (fresh_process "host1" "100" (dump_text x_reader_and_writer))
      ++ [state_file w'].
Proof.
  eapply (release_writes_the_last_line_twice cfg (quiet 100) x_reader_and_writer
            (mkClientState false true 100 "host1" "100")
            (fresh_process "host1" "100" (dump_text x_reader_and_writer))).
  - repeat constructor; vm_compute; congruence.
  - reflexivity.
  - vm_compute. reflexivity.
  - vm_compute. repeat constructor; [intros [H | []]; discriminate H | intros []].
  - vm_compute. left. reflexivity.
  - reflexivity.
  - reflexivity.
  - reflexivity.
Defined.

Lemma release_of_pending_entry_fails_the_assertion_witness :
  narwhal_unlock cfg (quiet 100)
    (fresh_process "host1" "200" (dump_text x_reader_and_writer))
  = Crashed AssertionFailed.
Proof.
  eapply (release_of_pending_entry_fails_the_assertion cfg (quiet 100) x_reader_and_writer
            (mkClientState true false 100 "host1" "200")
            (fresh_process "host1" "200" (dump_text x_reader_and_writer))).
  - repeat constructor; vm_compute; congruence.
  - reflexivity.
  - vm_compute. reflexivity.
  - vm_compute. repeat constructor; [intros [H | []]; discriminate H | intros []].
  - vm_compute. right. left. reflexivity.
  - reflexivity.
  - reflexivity.
  - reflexivity.
Defined.

Lemma exclusive_lock_succeeds_after_failed_links_witness :
  exists w',
    exclusive_lock cfg x_contended x_empty_dir = Done 0 w' /\
    errno w' = errno_after_links [mkSpin (Some 17) 101] (errno x_empty_dir) /\
    syscalls w'
    = syscalls x_empty_dir ++ EvCreat (private_file cfg x_empty_dir)
        :: repeat (EvLink (private_file cfg x_empty_dir) (lock_file cfg)) 2 /\
    critical_data w' = critical_data x_empty_dir.
Proof.
  apply (exclusive_lock_succeeds_after_failed_links cfg x_contended x_empty_dir
           [mkSpin (Some 17) 101] (mkSpin None 102) []).
  - reflexivity.
  - repeat constructor; [discriminate | vm_compute; discriminate].
  - reflexivity.
Defined.

Lemma mutex_timeout_ends_the_call_witness :
  exists w',
    narwhal_lock true cfg [mutex_timeout 100] x_empty_dir = Done (-1) w' /\
    narwhal_unlock cfg (mutex_timeout 100) x_empty_dir = Done (-1) w' /\
    errno w' = ETIMEDOUT /\
    syscalls w'
    = syscalls x_empty_dir ++ EvCreat (private_file cfg x_empty_dir)
        :: repeat (EvLink (private_file cfg x_empty_dir) (lock_file cfg)) 2 /\
    critical_data w' = critical_data x_empty_dir.
Proof.
  apply (mutex_timeout_ends_the_call true cfg (mutex_timeout 100) [] x_empty_dir
           [mkSpin (Some 17) 105] (mkSpin (Some 17) 111) []).
  - reflexivity.
  - repeat constructor; [discriminate | vm_compute; discriminate].
  - discriminate.
  - reflexivity.
Defined.

Lemma failed_unlink_hides_a_written_request_witness :
  exists (g : bool) (w' : World),
    narwhal_lock true cfg [unlink_fails 100] x_empty_dir = Done (-1) w' /\
    state_file w'
    = dump_text (List.filter (fun c => 100 - 10 <=? time c) []
                 ++ [mkClientState true g 100 "host1" "100"]) /\
    state_writes w' = state_writes x_empty_dir ++ [state_file w'] /\
    (existsb is_granted [] = false -> g = true).
Proof.
  eapply (failed_unlink_hides_a_written_request true cfg (unlink_fails 100) [] []
            x_empty_dir).
  - constructor.
  - reflexivity.
  - vm_compute. reflexivity.
  - right. discriminate.
  - intros c [].
Defined.

Lemma load_stops_at_an_unknown_letter_witness :
  load_client_states cfg 100
    (fresh_process "host1" "300"
       ("host1" +:+ String SP ("100" +:+ String SP ("X" +:+ String SP
          ("G" +:+ String LF EmptyString)))))
  = Crashed AssertionFailed.
Proof.
  apply (load_stops_at_an_unknown_letter cfg 100 _ "host1" "100" "X" "G" LF EmptyString).
  - split; [discriminate | reflexivity].
  - split; [discriminate | reflexivity].
  - split; [discriminate | reflexivity].
  - split; [discriminate | reflexivity].
  - reflexivity.
  - reflexivity.
  - left. split; discriminate.
Defined.

Lemma request_lock_keeps_one_entry_per_client_witness :
  exists w',
    request_lock true 100 c9_world = Done 1 w' /\
    List.NoDup (map key (take (n_client_states w') (client_states w'))).
Proof.
  eexists. split; [vm_compute; reflexivity|].
  eapply (request_lock_keeps_one_entry_per_client true 100 c9_world 1).
  - vm_compute. lia.
  - vm_compute. repeat constructor. intros [].
  - vm_compute. reflexivity.
Defined.

Lemma pending_request_is_granted_when_no_line_is_granted_witness :
  exists (i : nat) (w' : World),
    List.filter (fun e => 100 - 10 <=? time e) x_waiting_writer !! i
    = Some (mkClientState true false 90 "host1" "100") /\
    narwhal_lock true cfg [quiet 100]
      (fresh_process "host1" "100" (dump_text x_waiting_writer)) = Done 0 w' /\
    state_file w'
    = dump_text (<[i := mkClientState true true 100 "host1" "100"]>
                   (List.filter (fun e => 100 - 10 <=? time e) x_waiting_writer)) /\
    state_writes w'
    = state_writes (fresh_process "host1" "100" (dump_text x_waiting_writer))
      ++ [state_file w'].
Proof.
  eapply (pending_request_is_granted_when_no_line_is_granted true cfg (quiet 100) []
            x_waiting_writer (mkClientState true false 90 "host1" "100")
            (fresh_process "host1" "100" (dump_text x_waiting_writer))).
  - repeat constructor; vm_compute; congruence.
  - reflexivity.
  - vm_compute. reflexivity.
  - reflexivity.
  - reflexivity.
  - vm_compute. repeat constructor. intros [].
  - vm_compute. left. reflexivity.
  - reflexivity.
  - reflexivity.
  - reflexivity.
  - reflexivity.
Defined.
